(** * Rememory server: a shallow embedding of [server/app.py],
    [server/gemini_processor.py] and [server/config.py].

    The server keeps one process-wide session (GPS fixes, audio and photo
    indexes, the current state text), writes payloads to disk, and every
    three minutes asks a generative model for a summary.  Python code
    is rendered in a state-and-exception monad over a [World] that holds
    everything the handlers can touch: the session dictionary, the
    processor's context history, the files, the console and the
    messages sent over the socket. *)

From Stdlib Require Import Ascii String.
From stdpp Require Import base strings list gmap pretty.

Open Scope string_scope.
Open Scope list_scope.
Open Scope nat_scope.

(** ** Python results and exceptions *)

(** An exception, as far as the handlers look at it: its class and
    the text [str(e)] gives. *)
#[projections(primitive)] Record Exn := mkExn { exn_class : string; exn_str : string }.

Inductive Result (A : Type) : Type :=
| Ok (a : A)
| Raise (e : Exn).
Arguments Ok {A} a.
Arguments Raise {A} e.

#[global] Instance Result_ret : MRet Result := λ A a, Ok a.
#[global] Instance Result_bind : MBind Result := λ A B f r,
  match r with
  | Ok a => f a
  | Raise e => Raise e
  end.

Definition is_ok {A} (r : Result A) : bool :=
  match r with Ok _ => true | Raise _ => false end.

Definition TypeError (msg : string) : Exn := mkExn "TypeError" msg.
Definition ValueError (msg : string) : Exn := mkExn "ValueError" msg.
Definition KeyError (key : string) : Exn := mkExn "KeyError" ("'" +:+ key +:+ "'").
Definition IndexError (msg : string) : Exn := mkExn "IndexError" msg.

(** ** Strings and list slices *)

Definition nl : string := String "010"%char EmptyString.

(** [s[:n]] *)
Definition str_prefix (n : nat) (s : string) : string := String.substring 0 n s.

(** [l[-n:]] for [n > 0]: the last [n] elements, all of them when the
    list is shorter. *)
Definition slice_last {A} (n : nat) (l : list A) : list A :=
  drop (length l - n) l.

(** [c in s] for a one-character needle. *)
Fixpoint str_contains (c : ascii) (s : string) : bool :=
  match s with
  | EmptyString => false
  | String a s' => if decide (a = c) then true else str_contains c s'
  end.

(** [s.split(c)] for a one-character separator: the pieces between the
    separators, empty pieces included. *)
Fixpoint str_split (c : ascii) (s : string) : list string :=
  match s with
  | EmptyString => [EmptyString]
  | String a s' =>
      if decide (a = c) then EmptyString :: str_split c s'
      else match str_split c s' with
           | p :: ps => String a p :: ps
           | [] => [String a EmptyString]
           end
  end.

Definition comma : ascii := ","%char.

(** The characters of base64 text: letters, digits, [+], [/] and the
    padding [=]. *)
Definition base64_char (c : ascii) : bool :=
  let n := nat_of_ascii c in
  bool_decide (65 ≤ n ≤ 90 ∨ 97 ≤ n ≤ 122 ∨ 48 ≤ n ≤ 57 ∨ n = 43 ∨ n = 47 ∨ n = 61).

Fixpoint base64_text (s : string) : bool :=
  match s with
  | EmptyString => true
  | String c s' => base64_char c && base64_text s'
  end.

(** [s.zfill(w)] on a string of digits. *)
Definition zfill (w : nat) (s : string) : string :=
  String.concat "" (replicate (w - String.length s) "0") +:+ s.

(** ** [datetime] *)

#[projections(primitive)] Record datetime := mkDatetime {
  year : nat; month : nat; day : nat;
  hour : nat; minute : nat; second : nat; microsecond : nat }.

Definition dd (w n : nat) : string := zfill w (pretty n).

(** [t.strftime('%Y%m%d')] *)
Definition strftime_Ymd (t : datetime) : string :=
  dd 4 (year t) +:+ dd 2 (month t) +:+ dd 2 (day t).

(** [t.strftime('%Y%m%d_%H%M%S')] *)
Definition strftime_Ymd_HMS (t : datetime) : string :=
  strftime_Ymd t +:+ "_" +:+ dd 2 (hour t) +:+ dd 2 (minute t) +:+ dd 2 (second t).

(** [t.strftime('%Y%m%d_%H%M%S_%f')] *)
Definition strftime_Ymd_HMS_f (t : datetime) : string :=
  strftime_Ymd_HMS t +:+ "_" +:+ dd 6 (microsecond t).

(** [t.isoformat()]: the fraction is printed only when it is not zero. *)
Definition isoformat (t : datetime) : string :=
  dd 4 (year t) +:+ "-" +:+ dd 2 (month t) +:+ "-" +:+ dd 2 (day t) +:+ "T" +:+
  dd 2 (hour t) +:+ ":" +:+ dd 2 (minute t) +:+ ":" +:+ dd 2 (second t) +:+
  (if decide (microsecond t = 0) then "" else "." +:+ dd 6 (microsecond t)).

(** [os.path.join(d, f)] for a relative [f] and a directory not ending in
    a slash, which is how the server calls it. *)
Definition os_path_join (d f : string) : string := d +:+ "/" +:+ f.

(** ** What the server takes from its platform

    Numbers sent by the client are JSON numbers, stored as Python ints or
    floats; their printing is left to the platform.  So are the base64
    decoder of the standard library, the wall clock (the [k]-th reading
    of [datetime.now()]) and the directory the server was installed in. *)
Class Numbers := { number : Type }.

Class Runtime `{Numbers} := {
  number_str : number → string;          (* str(x) *)
  number_format_6f : number → string;    (* format(x, '.6f') *)
  number_type : number → string;         (* type(x).__name__ *)
  b64decode : string → Result (list Byte.byte);
  clock : nat → datetime;
  DATA_DIR : string;
}.

Section Server.
Context `{Numbers} `{!Runtime}.

(** ** Data model *)

(** A value found in an event payload: JSON [null], a number or a string. *)
Inductive pyval : Type :=
| PNone
| PNum (x : number)
| PStr (s : string).

(** [str(v)] *)
Definition py_str (v : pyval) : string :=
  match v with
  | PNone => "None"
  | PNum x => number_str x
  | PStr s => s
  end.

(** [type(v).__name__] *)
Definition py_type (v : pyval) : string :=
  match v with
  | PNone => "NoneType"
  | PNum x => number_type x
  | PStr _ => "str"
  end.

(** [format(v, '.6f')]: numbers only. *)
Definition format_6f (v : pyval) : Result string :=
  match v with
  | PNum x => Ok (number_format_6f x)
  | PNone => Raise (TypeError "unsupported format string passed to NoneType.__format__")
  | PStr _ => Raise (ValueError "Unknown format code 'f' for object of type 'str'")
  end.

(** [d.get(k)] and [d[k]] on a payload dictionary. *)
Definition dict_get (d : gmap string pyval) (k : string) : pyval :=
  default PNone (d !! k).

Definition dict_getitem (d : gmap string pyval) (k : string) : Result pyval :=
  match d !! k with
  | Some v => Ok v
  | None => Raise (KeyError k)
  end.

(** The entries of [current_session['gps_data']]. *)
#[projections(primitive)] Record GpsEntry := mkGpsEntry {
  gps_timestamp : string;
  gps_latitude : pyval;
  gps_longitude : pyval;
  gps_accuracy : pyval;
  gps_altitude : pyval;
  gps_heading : pyval;
  gps_speed : pyval }.

(** The entries of [current_session['audio_chunks']]. *)
#[projections(primitive)] Record AudioEntry := mkAudioEntry {
  audio_timestamp : string;
  audio_filename : string;
  audio_size : nat }.

(** The entries of [current_session['photos']]. *)
#[projections(primitive)] Record PhotoEntry := mkPhotoEntry {
  photo_timestamp : string;
  photo_filename : string;
  photo_path : string;
  photo_size : nat }.

(** [current_session] *)
#[projections(primitive)] Record Session := mkSession {
  gps_data : list GpsEntry;
  audio_chunks : list AudioEntry;
  photos : list PhotoEntry;
  current_state : string;
  last_update : string }.

(** The entries of [GeminiProcessor.context_history]. *)
#[projections(primitive)] Record ContextEntry := mkContextEntry {
  ctx_timestamp : string;
  ctx_prompt : string;
  ctx_response : string }.

(** [data_snapshot], the argument of [generate_state]. *)
#[projections(primitive)] Record Snapshot := mkSnapshot {
  snap_gps_data : list GpsEntry;
  snap_photos : list PhotoEntry;
  snap_audio_chunks : nat }.

(** A line of the daily state log; [json.dumps] writes one such record
    per line. *)
#[projections(primitive)] Record LogEntry := mkLogEntry {
  log_timestamp : string;
  log_state : string;
  log_gps_count : nat;
  log_photo_count : nat;
  log_audio_chunks : nat }.

(** A message put on the socket: [emit] answers the client whose event is
    being handled, [socketio.emit] goes to every connected client. *)
Inductive Target : Type :=
| ToClient (sid : string)
| Broadcast.

#[projections(primitive)] Record Message := mkMessage {
  msg_target : Target;
  msg_event : string;
  msg_payload : list (string * string) }.

(** ** The world the handlers run in *)

#[projections(primitive)] Record World := mkWorld {
  current_session : Session;
  context_history : list ContextEntry;
  files : gmap string (list Byte.byte);
  log_files : gmap string (list LogEntry);
  stdout : list string;
  socket_out : list Message;
  ticks : nat }.

Definition AUDIO_DIR : string := os_path_join DATA_DIR "audio".
Definition PHOTO_DIR : string := os_path_join DATA_DIR "photos".
Definition LOG_DIR : string := os_path_join DATA_DIR "logs".

(** ** The monad: state threading, with exceptions that keep the state
    reached when they were raised (Python rolls nothing back). *)

Definition M (A : Type) : Type := World → Result A * World.

#[global] Instance M_ret : MRet M := λ A a w, (Ok a, w).
#[global] Instance M_bind : MBind M := λ A B f m w,
  match m w with
  | (Ok a, w') => f a w'
  | (Raise e, w') => (Raise e, w')
  end.

Definition raise {A} (e : Exn) : M A := λ w, (Raise e, w).

Definition lift {A} (r : Result A) : M A := λ w, (r, w).

(** [try: body  except Exception as e: handler e] *)
Definition try_except {A} (body : M A) (handler : Exn → M A) : M A := λ w,
  match body w with
  | (Ok a, w') => (Ok a, w')
  | (Raise e, w') => handler e w'
  end.

Definition get_session : M Session := λ w, (Ok (current_session w), w).

Definition set_session (s : Session) : M unit := λ w,
  (Ok tt, mkWorld s (context_history w) (files w) (log_files w)
                  (stdout w) (socket_out w) (ticks w)).

Definition get_context_history : M (list ContextEntry) := λ w,
  (Ok (context_history w), w).

Definition set_context_history (h : list ContextEntry) : M unit := λ w,
  (Ok tt, mkWorld (current_session w) h (files w) (log_files w)
                  (stdout w) (socket_out w) (ticks w)).

(** [datetime.now()] *)
Definition now : M datetime := λ w,
  (Ok (clock (ticks w)),
   mkWorld (current_session w) (context_history w) (files w) (log_files w)
           (stdout w) (socket_out w) (S (ticks w))).

Definition print (line : string) : M unit := λ w,
  (Ok tt, mkWorld (current_session w) (context_history w) (files w) (log_files w)
                  (stdout w ++ [line]) (socket_out w) (ticks w)).

Definition send (m : Message) : M unit := λ w,
  (Ok tt, mkWorld (current_session w) (context_history w) (files w) (log_files w)
                  (stdout w) (socket_out w ++ [m]) (ticks w)).

(** [with open(path, 'wb') as f: f.write(data)]: the file is created or
    replaced. *)
Definition write_file (path : string) (data : list Byte.byte) : M unit := λ w,
  (Ok tt, mkWorld (current_session w) (context_history w)
                  (<[path := data]> (files w)) (log_files w)
                  (stdout w) (socket_out w) (ticks w)).

(** [with open(path, 'a') as f: f.write(json.dumps(entry) + '\n')] *)
Definition append_log (path : string) (entry : LogEntry) : M unit := λ w,
  (Ok tt, mkWorld (current_session w) (context_history w) (files w)
                  (<[path := (default [] (log_files w !! path) ++ [entry])%list]> (log_files w))
                  (stdout w) (socket_out w) (ticks w)).

(** ** [gemini_processor.py] *)

Definition system_context : string :=
"You are an AI assistant helping someone with memory difficulties.
Your job is to analyze their current location, surroundings, and activities to provide a clear,
concise summary of where they are and what's happening around them.

Be reassuring, specific, and helpful. Focus on:
1. Current location and what's at that location
2. What activity they appear to be doing
3. Any important context from recent history
4. Anything they should be aware of

Keep your response to 2-3 short paragraphs maximum. Be warm and supportive.
".

Definition location_header : string := nl +:+ "--- CURRENT LOCATION ---".
Definition photos_header : string := nl +:+ "--- PHOTOS CAPTURED ---".
Definition audio_header : string := nl +:+ "--- AUDIO DATA ---".
Definition history_header : string := nl +:+ "--- RECENT HISTORY ---".

Definition final_instruction : string :=
  nl +:+ "--- YOUR TASK ---" +:+ nl +:+
  "Based on all the above information, provide a clear, supportive summary of " +:+
  "where the person is and what's happening. If you can identify the location from " +:+
  "coordinates, mention specific place names. Be specific and reassuring.".

(** One line of the movement trail; the [.6f] format fails on a fix
    without coordinates. *)
Definition trail_line (gps : GpsEntry) : Result string :=
  lat ← format_6f (gps_latitude gps);
  lon ← format_6f (gps_longitude gps);
  mret ("  - " +:+ lat +:+ ", " +:+ lon +:+ " at " +:+ gps_timestamp gps).

Definition photo_line (photo : PhotoEntry) : string :=
  "  - " +:+ photo_filename photo +:+ " at " +:+ photo_timestamp photo.

(** [for x in l: prompt_parts.append(f x)], stopping at the first
    exception. *)
Fixpoint append_each {A} (f : A → Result string) (l : list A)
    (prompt_parts : list string) : Result (list string) :=
  match l with
  | [] => Ok prompt_parts
  | x :: l' =>
      line ← f x;
      append_each f l' (prompt_parts ++ [line])%list
  end.

(** The block under [# GPS data]. *)
Definition add_gps_data (data : Snapshot) (prompt_parts : list string)
    : Result (list string) :=
  match last (snap_gps_data data) with
  | None => Ok prompt_parts
  | Some latest_gps =>
      let prompt_parts :=
        (prompt_parts ++
         [location_header;
          "Latitude: " +:+ py_str (gps_latitude latest_gps);
          "Longitude: " +:+ py_str (gps_longitude latest_gps);
          "Time: " +:+ gps_timestamp latest_gps])%list in
      if decide (1 < length (snap_gps_data data)) then
        append_each trail_line (slice_last 5 (snap_gps_data data))
          (prompt_parts ++
           [nl +:+ "Recent locations (last " +:+
            pretty (length (snap_gps_data data)) +:+ " updates):"])%list
      else Ok prompt_parts
  end.

(** The block under [# Photo data]. *)
Definition add_photo_data (data : Snapshot) (prompt_parts : list string)
    : list string :=
  match snap_photos data with
  | [] => prompt_parts
  | _ :: _ =>
      (prompt_parts ++
       [photos_header;
        "Number of photos taken: " +:+ pretty (length (snap_photos data));
        "Most recent photos:"] ++
       (photo_line <$> slice_last 3 (snap_photos data)) ++
       [nl +:+ "Note: Photo analysis will be added in future updates. For now, " +:+
        "provide general context based on location and time."])%list
  end.

(** The block under [# Audio data]. *)
Definition add_audio_data (data : Snapshot) (prompt_parts : list string)
    : list string :=
  if decide (snap_audio_chunks data = 0) then prompt_parts
  else
    (prompt_parts ++
     [audio_header;
      "Audio chunks captured: " +:+ pretty (snap_audio_chunks data);
      "Note: Audio transcription will be added in future updates."])%list.

(** The block under [# Previous context]. *)
Definition add_previous_context (history : list ContextEntry)
    (prompt_parts : list string) : list string :=
  match last history with
  | None => prompt_parts
  | Some previous =>
      (prompt_parts ++
       [history_header;
        "Previous state (for context): " +:+ ctx_response previous])%list
  end.

(** The list [prompt_parts] as it stands when [_build_state_prompt]
    joins it. *)
Definition build_prompt_parts (history : list ContextEntry) (data : Snapshot)
    : Result (list string) :=
  let prompt_parts := [system_context] in
  prompt_parts ← add_gps_data data prompt_parts;
  let prompt_parts := add_photo_data data prompt_parts in
  let prompt_parts := add_audio_data data prompt_parts in
  let prompt_parts := add_previous_context history prompt_parts in
  mret (prompt_parts ++ [final_instruction])%list.

Definition _build_state_prompt (data : Snapshot) : M string :=
  history ← get_context_history;
  prompt_parts ← lift (build_prompt_parts history data);
  mret (String.concat nl prompt_parts).

(** [GeminiProcessor.generate_state]; [model prompt] is what
    [self.model.generate_content(prompt).text] comes to: the reply, or the
    exception the call or the reply raised. *)
Definition generate_state (model : string → Result string) (data : Snapshot)
    : M string :=
  try_except
    (prompt ← _build_state_prompt data;
     state_text ← lift (model prompt);
     t ← now;
     history ← get_context_history;
     let history :=
       (history ++
        [mkContextEntry (isoformat t) (str_prefix 200 prompt +:+ "...") state_text])%list in
     set_context_history
       (if decide (10 < length history) then slice_last 10 history else history);;
     mret state_text)
    (λ e,
     let error_msg := "Unable to generate state: " +:+ exn_str e in
     print ("[Gemini Error] " +:+ error_msg);;
     mret error_msg).

(** [GeminiProcessor.__init__]; [load_model name] is
    [genai.GenerativeModel(name)], giving the model's name back.  The
    result is the console output and the fresh [context_history]. *)
Definition GeminiProcessor_init (load_model : string → Result string)
    (api_key : string) : Result (list string * list ContextEntry) :=
  if decide (api_key = "") then Raise (ValueError "Gemini API key is required")
  else
    '(out, model_name) ←
      match load_model "gemini-3-pro-preview-11-2025" with
      | Ok m => Ok ([], m)
      | Raise e =>
          let out :=
            ["[Gemini] Warning: Could not load Gemini 3 Pro, trying fallback: " +:+
             exn_str e] in
          match load_model "gemini-2.0-flash-exp" with
          | Ok m => Ok (out, m)
          | Raise _ => m ← load_model "gemini-1.5-pro"; Ok (out, m)
          end
      end;
    mret ((out ++ ["[Gemini] Initialized with model: " +:+ model_name])%list, []).

(** ** [config.py] *)

(** [Config.GEMINI_API_KEY]: from [config.json] when that file exists,
    from the environment otherwise. *)
Definition Config_GEMINI_API_KEY (config_json : option (gmap string string))
    (environ : gmap string string) : string :=
  match config_json with
  | Some config_data => default "" (config_data !! "GEMINI_API_KEY")
  | None => default "" (environ !! "GEMINI_API_KEY")
  end.

Definition Config_validate (GEMINI_API_KEY : string) : Result bool :=
  if decide (GEMINI_API_KEY = "") then
    Raise (ValueError
      ("GEMINI_API_KEY not found! " +:+
       "Please create server/config.json with your API key or set GEMINI_API_KEY environment variable."))
  else Ok true.

(** ** [app.py] *)

(** [c in v] and [base64.b64decode(v)] on a payload field, which need
    not be a string. *)
Definition py_contains (c : ascii) (v : pyval) : Result bool :=
  match v with
  | PStr s => Ok (str_contains c s)
  | _ => Raise (TypeError ("argument of type '" +:+ py_type v +:+ "' is not iterable"))
  end.

Definition base64_b64decode (v : pyval) : Result (list Byte.byte) :=
  match v with
  | PStr s => b64decode s
  | _ => Raise (TypeError
           ("argument should be a bytes-like object or ASCII string, not '" +:+
            py_type v +:+ "'"))
  end.

(** [v.split(',')[1]], reached only when [',' in v] held. *)
Definition split_second (v : pyval) : Result pyval :=
  match v with
  | PStr s =>
      match str_split comma s !! 1 with
      | Some piece => Ok (PStr piece)
      | None => Raise (IndexError "list index out of range")
      end
  | _ => Raise (mkExn "AttributeError"
           ("'" +:+ py_type v +:+ "' object has no attribute 'split'"))
  end.

(** One pass of the loop of [background_state_updater], after the sleep;
    [generate] is the call [gemini_processor.generate_state]. *)
Definition state_updater_cycle (generate : Snapshot → M string) : M unit :=
  session ← get_session;
  let data_snapshot :=
    mkSnapshot (gps_data session) (photos session) (length (audio_chunks session)) in
  try_except
    (new_state ← generate data_snapshot;
     t ← now;
     session ← get_session;
     set_session (mkSession (gps_data session) (audio_chunks session) (photos session)
                            new_state (isoformat t));;
     t ← now;
     let log_entry :=
       mkLogEntry (isoformat t) new_state
                  (length (snap_gps_data data_snapshot))
                  (length (snap_photos data_snapshot))
                  (snap_audio_chunks data_snapshot) in
     t ← now;
     let log_file := os_path_join LOG_DIR ("state_log_" +:+ strftime_Ymd t +:+ ".jsonl") in
     append_log log_file log_entry;;
     session ← get_session;
     send (mkMessage Broadcast "state_update"
             [("state", new_state); ("timestamp", last_update session)]);;
     t ← now;
     print ("[State Update] " +:+ isoformat t +:+ ": " +:+ str_prefix 100 new_state +:+ "..."))
    (λ e, print ("[Error] State update failed: " +:+ exn_str e)).

Definition background_state_updater_cycle (model : string → Result string) : M unit :=
  state_updater_cycle (generate_state model).

Definition handle_connect (sid : string) : M unit :=
  print ("[Client Connected] " +:+ sid);;
  session ← get_session;
  send (mkMessage (ToClient sid) "connected"
          [("message", "Connected to Rememory server");
           ("state", current_state session);
           ("timestamp", last_update session)]).

Definition handle_disconnect (sid : string) : M unit :=
  print ("[Client Disconnected] " +:+ sid).

Definition handle_gps_update (data : gmap string pyval) : M unit :=
  try_except
    (t ← now;
     let gps_entry :=
       mkGpsEntry (isoformat t)
                  (dict_get data "latitude") (dict_get data "longitude")
                  (dict_get data "accuracy") (dict_get data "altitude")
                  (dict_get data "heading") (dict_get data "speed") in
     session ← get_session;
     let gps := (gps_data session ++ [gps_entry])%list in
     set_session
       (mkSession (if decide (100 < length gps) then slice_last 100 gps else gps)
                  (audio_chunks session) (photos session)
                  (current_state session) (last_update session));;
     lat ← lift (format_6f (gps_latitude gps_entry));
     lon ← lift (format_6f (gps_longitude gps_entry));
     print ("[GPS Update] " +:+ lat +:+ ", " +:+ lon))
    (λ e, print ("[Error] GPS update failed: " +:+ exn_str e)).

Definition handle_audio_chunk (data : gmap string pyval) : M unit :=
  try_except
    (timestamp ← now;
     let audio_filename := "audio_" +:+ strftime_Ymd_HMS_f timestamp +:+ ".webm" in
     let audio_path := os_path_join AUDIO_DIR audio_filename in
     audio ← lift (dict_getitem data "audio");
     audio_data ← lift (base64_b64decode audio);
     write_file audio_path audio_data;;
     session ← get_session;
     set_session
       (mkSession (gps_data session)
                  (audio_chunks session ++
                   [mkAudioEntry (isoformat timestamp) audio_filename (length audio_data)])%list
                  (photos session) (current_state session) (last_update session));;
     print ("[Audio Chunk] Saved " +:+ audio_filename +:+ " (" +:+
            pretty (length audio_data) +:+ " bytes)"))
    (λ e, print ("[Error] Audio chunk save failed: " +:+ exn_str e)).

Definition handle_photo_capture (sid : string) (data : gmap string pyval) : M unit :=
  try_except
    (timestamp ← now;
     let photo_filename := "photo_" +:+ strftime_Ymd_HMS timestamp +:+ ".jpg" in
     let photo_path := os_path_join PHOTO_DIR photo_filename in
     image_data ← lift (dict_getitem data "image");
     has_comma ← lift (py_contains comma image_data);
     image_data ← (if has_comma : bool then lift (split_second image_data)
                   else mret image_data);
     photo_bytes ← lift (base64_b64decode image_data);
     write_file photo_path photo_bytes;;
     let photo_entry :=
       mkPhotoEntry (isoformat timestamp) photo_filename photo_path (length photo_bytes) in
     session ← get_session;
     set_session
       (mkSession (gps_data session) (audio_chunks session)
                  (photos session ++ [photo_entry])%list
                  (current_state session) (last_update session));;
     print ("[Photo Captured] " +:+ photo_filename +:+ " (" +:+
            pretty (length photo_bytes) +:+ " bytes)");;
     send (mkMessage (ToClient sid) "photo_saved"
             [("filename", photo_filename); ("timestamp", isoformat timestamp)]))
    (λ e,
     print ("[Error] Photo save failed: " +:+ exn_str e);;
     send (mkMessage (ToClient sid) "photo_error" [("error", exn_str e)])).

Definition handle_state_request (sid : string) : M unit :=
  session ← get_session;
  send (mkMessage (ToClient sid) "state_update"
          [("state", current_state session); ("timestamp", last_update session)]).

(** What can happen to a running server: a socket event from a client,
    or the background thread waking up (with what the model will answer
    this time). *)
Inductive Event : Type :=
| Connect (sid : string)
| Disconnect (sid : string)
| GpsUpdate (data : gmap string pyval)
| AudioChunk (data : gmap string pyval)
| PhotoCapture (sid : string) (data : gmap string pyval)
| RequestState (sid : string)
| UpdaterWakes (model : string → Result string).

Definition dispatch (ev : Event) : M unit :=
  match ev with
  | Connect sid => handle_connect sid
  | Disconnect sid => handle_disconnect sid
  | GpsUpdate data => handle_gps_update data
  | AudioChunk data => handle_audio_chunk data
  | PhotoCapture sid data => handle_photo_capture sid data
  | RequestState sid => handle_state_request sid
  | UpdaterWakes model => background_state_updater_cycle model
  end.

(** The server after a sequence of events. *)
Fixpoint run (evs : list Event) (w : World) : World :=
  match evs with
  | [] => w
  | ev :: evs' => run evs' (dispatch ev w).2
  end.

(** Module initialisation of [app.py] followed by its [__main__] block:
    the processor is built first, then the session; the result is the
    world in which the server starts serving. *)
Definition banner : string := String.concat "" (replicate 60 "=").

Definition app_start (load_model : string → Result string) (api_key : string)
    : Result World :=
  '(out, history) ← GeminiProcessor_init load_model api_key;
  mret (mkWorld
          (mkSession [] [] [] "Initializing Rememory..." (isoformat (clock 0)))
          history ∅ ∅
          (out ++
           [banner; "REMEMORY SERVER STARTING"; banner;
            "Data directory: " +:+ DATA_DIR;
            "Audio directory: " +:+ AUDIO_DIR;
            "Photo directory: " +:+ PHOTO_DIR;
            "Log directory: " +:+ LOG_DIR;
            banner;
            "[Background Task] State updater started (3-minute interval)"])%list
          [] 1).

(** The whole life of the process on a given configuration. *)
Definition serve (config_json : option (gmap string string))
    (environ : gmap string string) (load_model : string → Result string)
    (evs : list Event) : Result World :=
  w ← app_start load_model (Config_GEMINI_API_KEY config_json environ);
  mret (run evs w).

(** ** Vocabulary for the statements *)

(** The fix stored for a [gps_update] event handled when the clock
    reads [t]. *)
Definition gps_fix (t : datetime) (data : gmap string pyval) : GpsEntry :=
  mkGpsEntry (isoformat t)
             (dict_get data "latitude") (dict_get data "longitude")
             (dict_get data "accuracy") (dict_get data "altitude")
             (dict_get data "heading") (dict_get data "speed").

(** The prompt [generate_state] builds in a given state of the history,
    and its exchange with the model: the prompt sent and the text that
    came back. *)
Definition prompt_for (history : list ContextEntry) (data : Snapshot) : Result string :=
  prompt_parts ← build_prompt_parts history data;
  mret (String.concat nl prompt_parts).

Definition exchange (model : string → Result string) (history : list ContextEntry)
    (data : Snapshot) : Result (string * string) :=
  prompt ← prompt_for history data;
  state_text ← model prompt;
  mret (prompt, state_text).

(** The history entry a successful call records. *)
Definition context_entry (t : datetime) (prompt state_text : string) : ContextEntry :=
  mkContextEntry (isoformat t) (str_prefix 200 prompt +:+ "...") state_text.

(** The snapshot the updater takes of a world, and the log file of the
    day. *)
Definition snapshot_of (w : World) : Snapshot :=
  mkSnapshot (gps_data (current_session w)) (photos (current_session w))
             (length (audio_chunks (current_session w))).

Definition state_log (t : datetime) : string :=
  os_path_join LOG_DIR ("state_log_" +:+ strftime_Ymd t +:+ ".jsonl").

(** The text [handle_photo_capture] hands to the decoder: the piece
    after the first comma when there is a comma, the whole text
    otherwise. *)
Definition image_base64 (image : string) : string :=
  if str_contains comma image then default "" (str_split comma image !! 1)
  else image.

Definition audio_name (t : datetime) : string :=
  "audio_" +:+ strftime_Ymd_HMS_f t +:+ ".webm".

Definition photo_name (t : datetime) : string :=
  "photo_" +:+ strftime_Ymd_HMS t +:+ ".jpg".

(** The fixes received, and the history entries recorded, while the
    server goes through [evs] from [w]. *)
Fixpoint gps_received (evs : list Event) (w : World) : list GpsEntry :=
  match evs with
  | [] => []
  | ev :: evs' =>
      match ev with
      | GpsUpdate data => [gps_fix (clock (ticks w)) data]
      | _ => []
      end ++ gps_received evs' (dispatch ev w).2
  end.

Fixpoint history_recorded (evs : list Event) (w : World) : list ContextEntry :=
  match evs with
  | [] => []
  | ev :: evs' =>
      match ev with
      | UpdaterWakes model =>
          match exchange model (context_history w) (snapshot_of w) with
          | Ok (prompt, state_text) =>
              [context_entry (clock (ticks w)) prompt state_text]
          | Raise _ => []
          end
      | _ => []
      end ++ history_recorded evs' (dispatch ev w).2
  end.

(** A section is present when its header line is among the parts. *)
Definition section_headers : list string :=
  [location_header; photos_header; audio_header].

(** ** The rest of [gemini_processor.py] and [app.py] *)

Definition vision_prompt : string :=
"Describe what you see in this image in 2-3 sentences.
Focus on: location type (indoor/outdoor), people, objects, activities,
and anything important for someone who might not remember taking this photo.".

Definition transcription_prompt : string :=
"Transcribe this audio clearly.
If there are multiple speakers, indicate who is speaking when possible.
If the audio is unclear or silent, just say so.".

(** [GeminiProcessor.analyze_photo]; [upload_file path] is
    [genai.upload_file(path)], giving a handle on the uploaded file, and
    [model prompt file] is [self.model.generate_content([prompt, file]).text]. *)
Definition analyze_photo (upload_file : string → Result string)
    (model : string → string → Result string) (photo_path : string) : M string :=
  try_except
    (image_file ← lift (upload_file photo_path);
     response_text ← lift (model vision_prompt image_file);
     mret response_text)
    (λ e,
     print ("[Gemini Vision Error] " +:+ exn_str e);;
     mret ("Unable to analyze photo: " +:+ exn_str e)).

(** [GeminiProcessor.transcribe_audio] *)
Definition transcribe_audio (upload_file : string → Result string)
    (model : string → string → Result string) (audio_path : string) : M string :=
  try_except
    (audio_file ← lift (upload_file audio_path);
     response_text ← lift (model transcription_prompt audio_file);
     mret response_text)
    (λ e,
     print ("[Gemini Audio Error] " +:+ exn_str e);;
     mret ("Unable to transcribe audio: " +:+ exn_str e)).

(** The JSON object answered by [/api/status]. *)
#[projections(primitive)] Record StatusReply := mkStatusReply {
  status_status : string;
  status_current_state : string;
  status_last_update : string;
  status_gps_points : nat;
  status_photos : nat;
  status_audio_chunks : nat }.

(** [status] *)
Definition status : M StatusReply :=
  session ← get_session;
  mret (mkStatusReply "running" (current_state session) (last_update session)
          (length (gps_data session)) (length (photos session))
          (length (audio_chunks session))).

(** ** More vocabulary *)

Definition is_updater_wake (ev : Event) : bool :=
  match ev with UpdaterWakes _ => true | _ => false end.

Definition is_gps_update (ev : Event) : bool :=
  match ev with GpsUpdate _ => true | _ => false end.

Definition is_broadcast (m : Message) : bool :=
  match msg_target m with Broadcast => true | ToClient _ => false end.

(** The bytes an [audio_chunk] or [photo_capture] payload stands for, as
    the handlers compute them, or the exception met on the way. *)
Definition audio_payload (data : gmap string pyval) : Result (list Byte.byte) :=
  audio ← dict_getitem data "audio";
  base64_b64decode audio.

Definition photo_payload (data : gmap string pyval) : Result (list Byte.byte) :=
  image_data ← dict_getitem data "image";
  has_comma ← py_contains comma image_data;
  image_data ← (if has_comma : bool then split_second image_data else Ok image_data);
  base64_b64decode image_data.

Definition audio_saved (ev : Event) : bool :=
  match ev with
  | AudioChunk data => is_ok (audio_payload data)
  | _ => false
  end.

Definition photo_saved (ev : Event) : bool :=
  match ev with
  | PhotoCapture _ data => is_ok (photo_payload data)
  | _ => false
  end.

(** Every entry of the two indexes has its file. *)
Definition indexed_files_exist_in (w : World) : Prop :=
  (∀ e, e ∈ audio_chunks (current_session w) →
        is_Some (files w !! os_path_join AUDIO_DIR (audio_filename e))) ∧
  (∀ e, e ∈ photos (current_session w) → is_Some (files w !! photo_path e)).

(** What the history keeps of every prompt. *)
Definition stored_prompt : string := str_prefix 200 system_context +:+ "...".


End Server.

(** ** A concrete platform

    Integers for numbers, a clock that advances one second per reading,
    and a base64 decoder that follows the standard library's lenient
    mode: characters outside the alphabet are skipped, decoding stops at
    a complete padding, and an unfinished group is an error. *)

Definition b64_index (c : ascii) : option N :=
  let n := N_of_ascii c in
  if decide (65 ≤ n ≤ 90)%N then Some (n - 65)%N
  else if decide (97 ≤ n ≤ 122)%N then Some (n - 71)%N
  else if decide (48 ≤ n ≤ 57)%N then Some (n + 4)%N
  else if decide (n = 43)%N then Some 62%N
  else if decide (n = 47)%N then Some 63%N
  else None.

Definition byte_of_N (n : N) : Byte.byte :=
  default Byte.x00 (Byte.of_N (n mod 256)%N).

(** The decoding loop: [quad_pos] is the position in the current group of
    four, [leftchar] the bits carried over, [pads] the run of padding seen,
    [count] the number of alphabet characters read, [out] the bytes so
    far. *)
Fixpoint a2b_base64 (s : string) (quad_pos : nat) (leftchar : N) (pads : nat)
    (count : nat) (out : list Byte.byte) : Result (list Byte.byte) :=
  match s with
  | EmptyString =>
      match quad_pos with
      | 0 => Ok out
      | 1 => Raise (mkExn "binascii.Error"
               ("Invalid base64-encoded string: number of data characters (" +:+
                pretty count +:+ ") cannot be 1 more than a multiple of 4"))
      | _ => Raise (mkExn "binascii.Error" "Incorrect padding")
      end
  | String c s' =>
      if decide (c = "="%char) then
        if decide (2 ≤ quad_pos ∧ 4 ≤ quad_pos + S pads)%nat then Ok out
        else a2b_base64 s' quad_pos leftchar
               (if decide (2 ≤ quad_pos)%nat then S pads else pads) count out
      else
        match b64_index c with
        | None => a2b_base64 s' quad_pos leftchar pads count out
        | Some v =>
            match quad_pos with
            | 0 => a2b_base64 s' 1 v 0 (S count) out
            | 1 => a2b_base64 s' 2 (N.shiftl (N.land v 15) 4) 0 (S count)
                     (out ++ [byte_of_N (N.lor (N.shiftl leftchar 2) (N.shiftr v 4))])%list
            | 2 => a2b_base64 s' 3 (N.shiftl (N.land v 3) 6) 0 (S count)
                     (out ++ [byte_of_N (N.lor leftchar (N.shiftr v 2))])%list
            | _ => a2b_base64 s' 0 0%N 0 (S count)
                     (out ++ [byte_of_N (N.lor leftchar v)])%list
            end
        end
  end.

Definition b64decode_lenient (s : string) : Result (list Byte.byte) :=
  a2b_base64 s 0 0%N 0 0 [].

Definition second_clock (k : nat) : datetime :=
  mkDatetime 2025 11 20 ((12 + k / 3600) mod 24) ((k / 60) mod 60) (k mod 60) 0.

#[local] Instance integers : Numbers := {| number := Z |}.

#[local] Instance posix : Runtime := {|
  number_str := pretty;
  number_format_6f := λ z, pretty z +:+ ".000000";
  number_type := λ _, "int";
  b64decode := b64decode_lenient;
  clock := second_clock;
  DATA_DIR := "/srv/rememory/data";
|}.

Definition bytes_of_string (s : string) : list Byte.byte :=
  map byte_of_ascii (list_ascii_of_string s).

(** A server started on this platform, models that answer or fail, and a
    few payloads. *)
Definition model_loader (name : string) : Result string := Ok name.

Definition start_world : World :=
  match app_start model_loader "secret" with
  | Ok w => w
  | Raise _ => mkWorld (mkSession [] [] [] "" "") [] ∅ ∅ [] [] 0
  end.

Definition network_down : Exn := mkExn "ConnectionError" "network unreachable".

Definition unreachable_model (prompt : string) : Result string := Raise network_down.

Definition calm_model (prompt : string) : Result string :=
  Ok "You are at home, and all is well.".

Definition failing_generate (data : Snapshot) : M string :=
  raise (mkExn "RuntimeError" "boom").

Definition abc_payload : gmap string pyval :=
  {["audio" := PStr "QUJD"; "image" := PStr "QUJD"]}.

Definition broken_payload : gmap string pyval :=
  {["audio" := PStr "QQ="; "image" := PStr "QQ="]}.

Definition fix_without_latitude : gmap string pyval :=
  {["longitude" := PNum 2%Z]}.

Definition audio_only : Snapshot := mkSnapshot [] [] 3.

(** A second platform, whose clock only moves the microseconds: every
    reading falls in the same second. *)
Definition burst_clock (k : nat) : datetime := mkDatetime 2025 11 20 12 0 0 k.

Definition burst : Runtime := {|
  number_str := pretty;
  number_format_6f := λ z, pretty z +:+ ".000000";
  number_type := λ _, "int";
  b64decode := b64decode_lenient;
  clock := burst_clock;
  DATA_DIR := "/srv/rememory/data";
|}.

Definition def_payload : gmap string pyval := {["image" := PStr "REVG"]}.

Definition no_upload (path : string) : Result string :=
  Raise (mkExn "FileNotFoundError" "No such file").

Definition good_upload (path : string) : Result string := Ok ("files/" +:+ path).

Definition describing_model (prompt file : string) : Result string :=
  Ok "A kitchen table with a cup of tea.".

Definition second_model_only (name : string) : Result string :=
  if decide (name = "gemini-2.0-flash-exp") then Ok name
  else Raise (mkExn "NotFound" ("no model " +:+ name)).

Definition calm_text : string := "You are at home, and all is well.".

Definition first_prompt : string :=
  match prompt_for [] audio_only with Ok prompt => prompt | Raise _ => "" end.

Definition second_parts : list string :=
  match build_prompt_parts
          (context_history (generate_state calm_model audio_only start_world).2)
          audio_only with
  | Ok parts => parts
  | Raise _ => []
  end.

Definition quiet_events : list Event :=
  [Connect "a"; GpsUpdate fix_without_latitude; AudioChunk abc_payload;
   PhotoCapture "a" broken_payload; Disconnect "a"].

Definition busy_events : list Event :=
  [GpsUpdate fix_without_latitude; UpdaterWakes calm_model; AudioChunk abc_payload;
   PhotoCapture "a" abc_payload; AudioChunk broken_payload;
   UpdaterWakes unreachable_model; GpsUpdate ∅].


(** * Properties *)

(** ** Bounded buffers *)

Lemma slice_last_cap {A} (n : nat) (l : list A) :
  (if decide (n < length l) then slice_last n l else l) = slice_last n l.
Proof.
  unfold slice_last. case_decide as Hlen; [done|].
  replace (length l - n) with 0 by lia. by rewrite drop_0.
Qed.

Lemma slice_last_length {A} (n : nat) (l : list A) :
  length (slice_last n l) ≤ n.
Proof. unfold slice_last. rewrite length_drop. lia. Qed.

Lemma slice_last_short {A} (n : nat) (l : list A) :
  length l ≤ n → slice_last n l = l.
Proof.
  intros Hlen. unfold slice_last.
  replace (length l - n) with 0 by lia. by rewrite drop_0.
Qed.

Lemma slice_last_app {A} (n : nat) (l k : list A) :
  slice_last n (slice_last n l ++ k) = slice_last n (l ++ k).
Proof.
  unfold slice_last. rewrite !length_app, length_drop.
  destruct (decide (length l ≤ n)) as [Hle|Hgt].
  - replace (length l - n) with 0 by lia. by rewrite drop_0, Nat.sub_0_r.
  - rewrite (drop_app l k (length l + length k - n)).
    rewrite (drop_app (drop (length l - n) l)), drop_drop, length_drop.
    f_equal; f_equal; lia.
Qed.

(** ** Texts *)

Lemma append_empty_r s : s +:+ "" = s.
Proof.
  induction s as [|c s IH]; [done|].
  change (String c (s +:+ "") = String c s). by rewrite IH.
Qed.

Section Properties.
Context `{Numbers} `{!Runtime}.

(** Texts are compared as they are written, never by unfolding their
    characters. *)
Arguments String.append : simpl never.
Arguments String.concat : simpl never.
Arguments isoformat : simpl never.
Arguments strftime_Ymd : simpl never.
Arguments strftime_Ymd_HMS : simpl never.
Arguments strftime_Ymd_HMS_f : simpl never.
Arguments os_path_join : simpl never.
Arguments str_prefix : simpl never.
Arguments slice_last : simpl never.
Arguments pretty : simpl never.

(** Running the monad: its operations and the record projections are
    unfolded, everything else stays as written. *)
Ltac run_monad :=
  lazy beta iota zeta delta
    [mbind mret M_bind M_ret Result_bind Result_ret try_except lift raise
     now print send get_session set_session get_context_history
     set_context_history write_file append_log
     current_session context_history files log_files stdout socket_out ticks
     gps_data audio_chunks photos current_state last_update
     snap_gps_data snap_photos snap_audio_chunks
     gps_timestamp gps_latitude gps_longitude exn_str fst snd].

Lemma handle_gps_update_returns data w :
  (handle_gps_update data w).1 = Ok tt.
Proof.
  unfold handle_gps_update. run_monad.
  destruct (format_6f (dict_get data "latitude")); run_monad; [|done].
  destruct (format_6f (dict_get data "longitude")); by run_monad.
Qed.

Lemma handle_gps_update_session data w :
  current_session (handle_gps_update data w).2 =
  mkSession
    (slice_last 100 (gps_data (current_session w) ++ [gps_fix (clock (ticks w)) data]))
    (audio_chunks (current_session w)) (photos (current_session w))
    (current_state (current_session w)) (last_update (current_session w)).
Proof.
  unfold handle_gps_update. run_monad. fold (gps_fix (clock (ticks w)) data).
  rewrite slice_last_cap.
  destruct (format_6f (dict_get data "latitude")); run_monad; [|done].
  destruct (format_6f (dict_get data "longitude")); by run_monad.
Qed.

Lemma generate_state_ok model data w prompt state_text :
  exchange model (context_history w) data = Ok (prompt, state_text) →
  generate_state model data w =
  (Ok state_text,
   mkWorld (current_session w)
           (slice_last 10 (context_history w ++
                           [context_entry (clock (ticks w)) prompt state_text]))
           (files w) (log_files w) (stdout w) (socket_out w) (S (ticks w))).
Proof.
  unfold exchange, prompt_for, generate_state, _build_state_prompt. run_monad.
  destruct (build_prompt_parts _ data) as [parts|e]; run_monad; [|done].
  destruct (model _) as [text|e]; run_monad; [|done].
  intros [= <- <-]. by rewrite slice_last_cap.
Qed.

Lemma generate_state_failed model data w e :
  exchange model (context_history w) data = Raise e →
  generate_state model data w =
  (Ok ("Unable to generate state: " +:+ exn_str e),
   mkWorld (current_session w) (context_history w) (files w) (log_files w)
           (stdout w ++ ["[Gemini Error] " +:+ ("Unable to generate state: " +:+ exn_str e)])
           (socket_out w) (ticks w)).
Proof.
  unfold exchange, prompt_for, generate_state, _build_state_prompt. run_monad.
  destruct (build_prompt_parts _ data) as [parts|e']; run_monad.
  - destruct (model _) as [text|e']; run_monad; [done|]. by intros [= <-].
  - by intros [= <-].
Qed.

(** A cycle whose [generate] call raised: only the console changes. *)
Lemma state_updater_cycle_raised generate w e w1 :
  generate (snapshot_of w) w = (Raise e, w1) →
  state_updater_cycle generate w =
  (Ok tt,
   mkWorld (current_session w1) (context_history w1) (files w1) (log_files w1)
           (stdout w1 ++ ["[Error] State update failed: " +:+ exn_str e])
           (socket_out w1) (ticks w1)).
Proof.
  unfold state_updater_cycle, snapshot_of, state_log. run_monad.
  by intros ->.
Qed.

(** A cycle whose [generate] call returned a text. *)
Lemma state_updater_cycle_returned generate w new_state w1 :
  generate (snapshot_of w) w = (Ok new_state, w1) →
  state_updater_cycle generate w =
  (Ok tt,
   mkWorld
     (mkSession (gps_data (current_session w1)) (audio_chunks (current_session w1))
                (photos (current_session w1)) new_state (isoformat (clock (ticks w1))))
     (context_history w1) (files w1)
     (<[state_log (clock (S (S (ticks w1)))) :=
          default [] (log_files w1 !! state_log (clock (S (S (ticks w1))))) ++
          [mkLogEntry (isoformat (clock (S (ticks w1)))) new_state
                      (length (gps_data (current_session w)))
                      (length (photos (current_session w)))
                      (length (audio_chunks (current_session w)))]]>
        (log_files w1))
     (stdout w1 ++
      ["[State Update] " +:+ isoformat (clock (S (S (S (ticks w1))))) +:+ ": " +:+
       str_prefix 100 new_state +:+ "..."])
     (socket_out w1 ++
      [mkMessage Broadcast "state_update"
         [("state", new_state); ("timestamp", isoformat (clock (ticks w1)))]])
     (S (S (S (S (ticks w1)))))).
Proof.
  unfold state_updater_cycle, snapshot_of, state_log. run_monad.
  by intros ->.
Qed.

(** ** Saving audio and photos *)

Lemma str_split_no_sep c s :
  str_contains c s = false → str_split c s = [s].
Proof.
  induction s as [|a s IH]; simpl; [done|].
  case_decide; [done|]. intros Hs. by rewrite (IH Hs).
Qed.

Lemma str_split_sep c p d :
  str_contains c p = false →
  str_split c (p +:+ String c d) = p :: str_split c d.
Proof.
  induction p as [|a p IH]; simpl.
  - intros _. by rewrite decide_True.
  - case_decide; [done|]. intros Hp. by rewrite (IH Hp).
Qed.

Lemma str_contains_sep c p d :
  str_contains c (p +:+ String c d) = true.
Proof.
  induction p as [|a p IH]; simpl.
  - by rewrite decide_True.
  - by case_decide.
Qed.

Lemma str_split_second c s :
  str_contains c s = true → is_Some (str_split c s !! 1).
Proof.
  induction s as [|a s IH]; simpl; [done|].
  case_decide.
  - intros _. destruct s; simpl; [by eexists|].
    case_decide; [by eexists|]. destruct (str_split c s); by eexists.
  - intros Hs. destruct (IH Hs) as [piece Hpiece].
    destruct (str_split c s) as [|q qs]; [done|]. by exists piece.
Qed.

Lemma handle_audio_chunk_str data w s :
  data !! "audio" = Some (PStr s) →
  handle_audio_chunk data w =
  let t := clock (ticks w) in
  match b64decode s with
  | Ok audio_data =>
      (Ok tt,
       mkWorld
         (mkSession (gps_data (current_session w))
            (audio_chunks (current_session w) ++
             [mkAudioEntry (isoformat t) (audio_name t) (length audio_data)])
            (photos (current_session w)) (current_state (current_session w))
            (last_update (current_session w)))
         (context_history w)
         (<[os_path_join AUDIO_DIR (audio_name t) := audio_data]> (files w))
         (log_files w)
         (stdout w ++
          ["[Audio Chunk] Saved " +:+ audio_name t +:+ " (" +:+
           pretty (length audio_data) +:+ " bytes)"])
         (socket_out w) (S (ticks w)))
  | Raise e =>
      (Ok tt,
       mkWorld (current_session w) (context_history w) (files w) (log_files w)
               (stdout w ++ ["[Error] Audio chunk save failed: " +:+ exn_str e])
               (socket_out w) (S (ticks w)))
  end.
Proof.
  intros Hdata.
  unfold handle_audio_chunk, dict_getitem, base64_b64decode, audio_name.
  rewrite Hdata. run_monad.
  destruct (b64decode s); by run_monad.
Qed.

Lemma handle_photo_capture_str sid data w s :
  data !! "image" = Some (PStr s) →
  handle_photo_capture sid data w =
  let t := clock (ticks w) in
  match b64decode (image_base64 s) with
  | Ok photo_bytes =>
      (Ok tt,
       mkWorld
         (mkSession (gps_data (current_session w)) (audio_chunks (current_session w))
            (photos (current_session w) ++
             [mkPhotoEntry (isoformat t) (photo_name t)
                (os_path_join PHOTO_DIR (photo_name t)) (length photo_bytes)])
            (current_state (current_session w)) (last_update (current_session w)))
         (context_history w)
         (<[os_path_join PHOTO_DIR (photo_name t) := photo_bytes]> (files w))
         (log_files w)
         (stdout w ++
          ["[Photo Captured] " +:+ photo_name t +:+ " (" +:+
           pretty (length photo_bytes) +:+ " bytes)"])
         (socket_out w ++
          [mkMessage (ToClient sid) "photo_saved"
             [("filename", photo_name t); ("timestamp", isoformat t)]])
         (S (ticks w)))
  | Raise e =>
      (Ok tt,
       mkWorld (current_session w) (context_history w) (files w) (log_files w)
               (stdout w ++ ["[Error] Photo save failed: " +:+ exn_str e])
               (socket_out w ++ [mkMessage (ToClient sid) "photo_error" [("error", exn_str e)]])
               (S (ticks w)))
  end.
Proof.
  intros Hdata.
  unfold handle_photo_capture, dict_getitem, image_base64, py_contains,
    split_second, base64_b64decode, photo_name.
  rewrite Hdata. run_monad.
  destruct (str_contains comma s) eqn:Hcomma; run_monad.
  - destruct (str_split_second _ _ Hcomma) as [piece Hpiece].
    rewrite Hpiece. run_monad. change (default "" (Some piece)) with piece.
    destruct (b64decode piece); by run_monad.
  - destruct (b64decode s); by run_monad.
Qed.

(** ** What each event does to the two bounded buffers *)

(** Case analysis on the innermost result a handler branches on. *)
Ltac case_results :=
  repeat match goal with
         | |- context [match ?x with _ => _ end] =>
             lazymatch x with
             | context [match _ with _ => _ end] => fail
             | _ => destruct x; run_monad
             end
         end.

Lemma background_cycle_world model w :
  background_state_updater_cycle model w =
  state_updater_cycle (generate_state model) w ∧
  ∃ text w1,
    generate_state model (snapshot_of w) w = (Ok text, w1) ∧
    current_session w1 = current_session w ∧
    context_history w1 =
      match exchange model (context_history w) (snapshot_of w) with
      | Ok (prompt, state_text) =>
          slice_last 10 (context_history w ++
                         [context_entry (clock (ticks w)) prompt state_text])
      | Raise _ => context_history w
      end.
Proof.
  split; [done|].
  destruct (exchange model (context_history w) (snapshot_of w)) as [[prompt text]|e] eqn:Hx.
  - eexists _, _. split; [by apply generate_state_ok|]. done.
  - eexists _, _. split; [by apply generate_state_failed|]. done.
Qed.

Lemma dispatch_gps_data ev w :
  gps_data (current_session (dispatch ev w).2) =
  match ev with
  | GpsUpdate data =>
      slice_last 100 (gps_data (current_session w) ++ [gps_fix (clock (ticks w)) data])
  | _ => gps_data (current_session w)
  end.
Proof.
  destruct ev as [sid|sid|data|data|sid data|sid|model]; simpl.
  - done.
  - done.
  - by rewrite handle_gps_update_session.
  - unfold handle_audio_chunk, dict_getitem, base64_b64decode. run_monad.
    by case_results.
  - unfold handle_photo_capture, dict_getitem, base64_b64decode, py_contains,
      split_second. run_monad.
    by case_results.
  - done.
  - destruct (background_cycle_world model w) as (-> & text & w1 & Hgen & Hs & _).
    rewrite (state_updater_cycle_returned _ _ _ _ Hgen). simpl. by rewrite Hs.
Qed.

Lemma dispatch_context_history ev w :
  context_history (dispatch ev w).2 =
  match ev with
  | UpdaterWakes model =>
      match exchange model (context_history w) (snapshot_of w) with
      | Ok (prompt, state_text) =>
          slice_last 10 (context_history w ++
                         [context_entry (clock (ticks w)) prompt state_text])
      | Raise _ => context_history w
      end
  | _ => context_history w
  end.
Proof.
  destruct ev as [sid|sid|data|data|sid data|sid|model]; simpl.
  - done.
  - done.
  - unfold handle_gps_update. run_monad. by case_results.
  - unfold handle_audio_chunk, dict_getitem, base64_b64decode. run_monad.
    by case_results.
  - unfold handle_photo_capture, dict_getitem, base64_b64decode, py_contains,
      split_second. run_monad.
    by case_results.
  - done.
  - destruct (background_cycle_world model w) as (-> & text & w1 & Hgen & _ & Hh).
    rewrite (state_updater_cycle_returned _ _ _ _ Hgen). simpl. by rewrite Hh.
Qed.

Lemma run_gps_data evs : ∀ w,
  length (gps_data (current_session w)) ≤ 100 →
  gps_data (current_session (run evs w)) =
  slice_last 100 (gps_data (current_session w) ++ gps_received evs w).
Proof.
  induction evs as [|ev evs IH]; intros w Hlen; simpl.
  - by rewrite app_nil_r, slice_last_short.
  - pose proof (dispatch_gps_data ev w) as Hev.
    rewrite IH, Hev.
    + destruct ev; try done. by rewrite slice_last_app, <-app_assoc.
    + rewrite Hev. destruct ev; try done. apply slice_last_length.
Qed.

Lemma run_context_history evs : ∀ w,
  length (context_history w) ≤ 10 →
  context_history (run evs w) =
  slice_last 10 (context_history w ++ history_recorded evs w).
Proof.
  induction evs as [|ev evs IH]; intros w Hlen; simpl.
  - by rewrite app_nil_r, slice_last_short.
  - pose proof (dispatch_context_history ev w) as Hev.
    rewrite IH, Hev.
    + destruct ev; try done.
      destruct (exchange _ _ _) as [[prompt text]|e]; [|done].
      by rewrite slice_last_app, <-app_assoc.
    + rewrite Hev. destruct ev; try done.
      destruct (exchange _ _ _) as [[prompt text]|e]; [|done].
      apply slice_last_length.
Qed.

(** ** The sections of the prompt *)

Lemma trail_line_plain gps line :
  trail_line gps = Ok line → line ∉ section_headers.
Proof.
  unfold trail_line, section_headers. run_monad.
  destruct (format_6f _) as [lat|]; [|done].
  destruct (format_6f _) as [lon|]; [|done].
  intros [= <-]. rewrite !elem_of_cons, elem_of_nil. by intros [?|[?|[?|?]]].
Qed.

Lemma append_each_lines {A} (f : A → Result string) l : ∀ prompt_parts parts,
  append_each f l prompt_parts = Ok parts →
  ∃ lines, parts = prompt_parts ++ lines ∧ Forall (λ line, ∃ x, f x = Ok line) lines.
Proof.
  induction l as [|x l IH]; intros pp parts; simpl.
  - intros [= <-]. exists []. by rewrite app_nil_r.
  - unfold mbind, Result_bind. destruct (f x) as [line|] eqn:Hx; [|done].
    intros (lines & -> & Hlines)%IH. exists (line :: lines).
    rewrite <-app_assoc. split; [done|]. constructor; [by exists x|done].
Qed.

Lemma add_gps_data_headers data prompt_parts parts h :
  h ∈ section_headers →
  add_gps_data data prompt_parts = Ok parts →
  h ∈ parts ↔ h ∈ prompt_parts ∨ (h = location_header ∧ snap_gps_data data ≠ []).
Proof.
  intros Hh. unfold add_gps_data.
  destruct (last (snap_gps_data data)) as [latest|] eqn:Hlast.
  - assert (snap_gps_data data ≠ []) as Hne by (by intros Hnil; rewrite Hnil in Hlast).
    assert (∀ lines,
      Forall (λ line, ∃ x, trail_line x = Ok line) lines →
      h ∈ lines → False) as Hlines.
    { intros lines Hall Hin. rewrite Forall_forall in Hall.
      destruct (Hall _ Hin) as [x Hx]. by apply trail_line_plain in Hx. }
    case_decide.
    + intros (lines & -> & Hall)%append_each_lines.
      rewrite !elem_of_app, !elem_of_cons, elem_of_nil.
      unfold section_headers in Hh. rewrite !elem_of_cons, elem_of_nil in Hh.
      split.
      * intros [[[?|[?|[?|[?|[?|?]]]]]|[?|?]]|?]; try (by left); try (by right);
          try done; try (destruct Hh as [->|[->|[->|?]]]; done).
        by destruct (Hlines lines).
      * intros [?|[-> _]]; [by left; left; left|]. left; left; right. by left.
    + intros [= <-].
      rewrite !elem_of_app, !elem_of_cons, elem_of_nil.
      unfold section_headers in Hh. rewrite !elem_of_cons, elem_of_nil in Hh.
      split.
      * intros [?|[?|[?|[?|[?|?]]]]]; try (by left); try (by right);
          try done; destruct Hh as [->|[->|[->|?]]]; done.
      * intros [?|[-> _]]; [by left|]. right. by left.
  - intros [= <-]. apply last_None in Hlast. split; [by left|].
    by intros [?|[_ ?]].
Qed.

Lemma add_photo_data_headers data prompt_parts h :
  h ∈ section_headers →
  h ∈ add_photo_data data prompt_parts ↔
  h ∈ prompt_parts ∨ (h = photos_header ∧ snap_photos data ≠ []).
Proof.
  intros Hh. unfold add_photo_data.
  destruct (snap_photos data) as [|photo rest] eqn:Hphotos.
  - split; [by left|]. by intros [?|[_ ?]].
  - rewrite !elem_of_app, !elem_of_cons, elem_of_nil, list_elem_of_fmap.
    unfold section_headers in Hh. rewrite !elem_of_cons, elem_of_nil in Hh.
    split.
    + intros [?|[[?|[?|[?|?]]]|[(x & ? & _)|[?|?]]]]; try (by left);
        try (by right); try done; destruct Hh as [->|[->|[->|?]]]; done.
    + intros [?|[-> _]]; [by left|]. right; left. by left.
Qed.

Lemma add_audio_data_headers data prompt_parts h :
  h ∈ section_headers →
  h ∈ add_audio_data data prompt_parts ↔
  h ∈ prompt_parts ∨ (h = audio_header ∧ snap_audio_chunks data ≠ 0).
Proof.
  intros Hh. unfold add_audio_data. case_decide as Hcount.
  - split; [by left|]. by intros [?|[_ ?]].
  - rewrite !elem_of_app, !elem_of_cons, elem_of_nil.
    unfold section_headers in Hh. rewrite !elem_of_cons, elem_of_nil in Hh.
    split.
    + intros [?|[?|[?|[?|?]]]]; try (by left); try (by right); try done;
        destruct Hh as [->|[->|[->|?]]]; done.
    + intros [?|[-> _]]; [by left|]. right. by left.
Qed.

Lemma add_previous_context_headers history prompt_parts h :
  h ∈ section_headers →
  h ∈ add_previous_context history prompt_parts ↔ h ∈ prompt_parts.
Proof.
  intros Hh. unfold add_previous_context.
  destruct (last history) as [previous|]; [|done].
  rewrite !elem_of_app, !elem_of_cons, elem_of_nil.
  unfold section_headers in Hh. rewrite !elem_of_cons, elem_of_nil in Hh.
  split; [|by left].
  intros [?|[?|[?|?]]]; try done; destruct Hh as [->|[->|[->|?]]]; done.
Qed.

Lemma build_prompt_parts_headers history data parts h :
  h ∈ section_headers →
  build_prompt_parts history data = Ok parts →
  h ∈ parts ↔
  (h = location_header ∧ snap_gps_data data ≠ []) ∨
  (h = photos_header ∧ snap_photos data ≠ []) ∨
  (h = audio_header ∧ snap_audio_chunks data ≠ 0).
Proof.
  intros Hh. unfold build_prompt_parts, mbind, Result_bind.
  destruct (add_gps_data data [system_context]) as [gps_parts|] eqn:Hgps; [|done].
  intros [= <-].
  rewrite elem_of_app, add_previous_context_headers, add_audio_data_headers,
    add_photo_data_headers, (add_gps_data_headers _ _ _ _ Hh Hgps) by done.
  rewrite !elem_of_cons, !elem_of_nil.
  unfold section_headers in Hh. rewrite !elem_of_cons, elem_of_nil in Hh.
  split; [|tauto].
  intros [[[[[?|?]|?]|?]|?]|[?|?]]; try tauto;
    destruct Hh as [->|[->|[->|?]]]; done.
Qed.

Lemma build_prompt_parts_no_gps history data :
  snap_gps_data data = [] →
  build_prompt_parts history data =
  Ok (add_previous_context history
        (add_audio_data data (add_photo_data data [system_context])) ++
      [final_instruction]).
Proof. intros Hgps. unfold build_prompt_parts, add_gps_data. by rewrite Hgps. Qed.

Lemma slice_last_snoc {A} (n : nat) (l : list A) (x : A) :
  0 < n → last (slice_last n (l ++ [x])) = Some x.
Proof.
  intros Hn. unfold slice_last. rewrite length_app, drop_app. simpl.
  replace (length l + 1 - n - length l) with 0 by lia.
  by rewrite drop_0, last_snoc.
Qed.

Lemma base64_text_no_comma s :
  base64_text s = true → str_contains comma s = false.
Proof.
  induction s as [|c s IH]; simpl; [done|].
  intros [Hc Hs]%andb_prop. case_decide as Hcomma; [|by apply IH].
  by rewrite Hcomma in Hc.
Qed.

Lemma photo_capture_prefix sid data header payload w :
  str_contains comma header = false →
  str_contains comma payload = false →
  handle_photo_capture sid (<["image" := PStr (header +:+ String comma payload)]> data) w =
  handle_photo_capture sid (<["image" := PStr payload]> data) w.
Proof.
  intros Hheader Hpayload.
  rewrite !(handle_photo_capture_str _ _ _ _ (lookup_insert_eq _ _ _)).
  unfold image_base64.
  by rewrite str_contains_sep, str_split_sep, str_split_no_sep, Hpayload.
Qed.

(** ** The periodic summary *)

(** C3. [generate_state] never raises: it returns the model's text when
    the prompt was built and the model answered, and otherwise the text
    "Unable to generate state: " followed by the error, whatever failed
    (building the prompt, the call, or reading the reply). *)
Theorem generate_state_never_raises model data w :
  (generate_state model data w).1 =
  Ok (match exchange model (context_history w) data with
      | Ok (_, state_text) => state_text
      | Raise e => "Unable to generate state: " +:+ exn_str e
      end).
Proof.
  destruct (exchange model (context_history w) data) as [[prompt text]|e] eqn:Hx.
  - by rewrite (generate_state_ok _ _ _ _ _ Hx).
  - by rewrite (generate_state_failed _ _ _ _ Hx).
Qed.

(** C1, as the code has it.  The loop skips a cycle only when the call to
    [generate_state] itself raises: then the session, the log files and the
    socket are as the call left them.  A failure of the model is not such a
    case: [generate_state] turns it into the text "Unable to generate
    state: ...", and the cycle goes on as a successful one, storing that
    text as the current state, refreshing the time of the last update,
    appending a log line and broadcasting [state_update]. *)
Theorem failed_model_call_is_published w :
  (∀ generate e w1,
     generate (snapshot_of w) w = (Raise e, w1) →
     let r := state_updater_cycle generate w in
     r.1 = Ok tt ∧
     current_session r.2 = current_session w1 ∧
     log_files r.2 = log_files w1 ∧
     socket_out r.2 = socket_out w1) ∧
  (∀ model e,
     exchange model (context_history w) (snapshot_of w) = Raise e →
     let new_state := "Unable to generate state: " +:+ exn_str e in
     let log_file := state_log (clock (S (S (ticks w)))) in
     let r := background_state_updater_cycle model w in
     r.1 = Ok tt ∧
     current_state (current_session r.2) = new_state ∧
     last_update (current_session r.2) = isoformat (clock (ticks w)) ∧
     log_files r.2 =
       <[log_file :=
           default [] (log_files w !! log_file) ++
           [mkLogEntry (isoformat (clock (S (ticks w)))) new_state
              (length (gps_data (current_session w)))
              (length (photos (current_session w)))
              (length (audio_chunks (current_session w)))]]> (log_files w) ∧
     socket_out r.2 =
       socket_out w ++
       [mkMessage Broadcast "state_update"
          [("state", new_state); ("timestamp", isoformat (clock (ticks w)))]]).
Proof.
  split.
  - intros generate e w1 Hgen. simpl.
    by rewrite (state_updater_cycle_raised _ _ _ _ Hgen).
  - intros model e Hx. simpl. unfold background_state_updater_cycle.
    by rewrite (state_updater_cycle_returned _ _ _ _
                  (generate_state_failed _ _ _ _ Hx)).
Qed.

(** ** GPS fixes *)

(** C2. From the start of the server and after any sequence of events,
    the GPS history holds at most 100 fixes, and they are the last 100 (or
    fewer) of the fixes received, in the order of receipt. *)
Theorem gps_history_keeps_last_100 load_model api_key w0 evs :
  app_start load_model api_key = Ok w0 →
  length (gps_data (current_session (run evs w0))) ≤ 100 ∧
  gps_data (current_session (run evs w0)) = slice_last 100 (gps_received evs w0).
Proof.
  intros Hstart.
  assert (gps_data (current_session w0) = []) as Hempty.
  { unfold app_start, mbind, Result_bind in Hstart.
    destruct (GeminiProcessor_init load_model api_key) as [[out history]|]; [|done].
    by injection Hstart as <-. }
  assert (gps_data (current_session (run evs w0)) =
          slice_last 100 (gps_received evs w0)) as ->.
  { rewrite run_gps_data; rewrite Hempty; [done|simpl; lia]. }
  split; [apply slice_last_length|done].
Qed.

(** C10. A [gps_update] whose latitude or longitude is missing or null is
    still recorded: the fix is appended, it is the newest entry of the
    history, the formatting fault of the log statement is caught and
    printed, and the handler returns normally. *)
Theorem gps_update_without_coordinates_is_kept data w :
  dict_get data "latitude" = PNone ∨ dict_get data "longitude" = PNone →
  let entry := gps_fix (clock (ticks w)) data in
  let r := handle_gps_update data w in
  r.1 = Ok tt ∧
  gps_data (current_session r.2) =
    slice_last 100 (gps_data (current_session w) ++ [entry]) ∧
  last (gps_data (current_session r.2)) = Some entry ∧
  (gps_latitude entry = PNone ∨ gps_longitude entry = PNone) ∧
  ∃ e, stdout r.2 = stdout w ++ ["[Error] GPS update failed: " +:+ exn_str e].
Proof.
  intros Hmissing. simpl.
  rewrite handle_gps_update_returns, handle_gps_update_session.
  split; [done|]. split; [done|]. split; [by apply slice_last_snoc; lia|].
  split; [done|].
  unfold handle_gps_update. run_monad.
  destruct (format_6f (dict_get data "latitude")) as [lat|e] eqn:Hlat; run_monad.
  - destruct Hmissing as [Hnone|Hnone]; [by rewrite Hnone in Hlat|].
    rewrite Hnone. run_monad. by eexists.
  - by eexists.
Qed.

(** ** Audio and photo payloads *)

(** C4. An [audio_chunk] or [photo_capture] event whose payload decodes
    writes one file, holding exactly the decoded bytes, and appends one
    entry with that file's name and size to its own index; the other
    index and every other file are untouched. *)
Theorem valid_payload_is_saved sid data w s bytes :
  (data !! "audio" = Some (PStr s) →
   b64decode s = Ok bytes →
   let t := clock (ticks w) in
   let r := handle_audio_chunk data w in
   r.1 = Ok tt ∧
   files r.2 = <[os_path_join AUDIO_DIR (audio_name t) := bytes]> (files w) ∧
   audio_chunks (current_session r.2) =
     audio_chunks (current_session w) ++
     [mkAudioEntry (isoformat t) (audio_name t) (length bytes)] ∧
   photos (current_session r.2) = photos (current_session w)) ∧
  (data !! "image" = Some (PStr s) →
   b64decode (image_base64 s) = Ok bytes →
   let t := clock (ticks w) in
   let r := handle_photo_capture sid data w in
   r.1 = Ok tt ∧
   files r.2 = <[os_path_join PHOTO_DIR (photo_name t) := bytes]> (files w) ∧
   photos (current_session r.2) =
     photos (current_session w) ++
     [mkPhotoEntry (isoformat t) (photo_name t)
        (os_path_join PHOTO_DIR (photo_name t)) (length bytes)] ∧
   audio_chunks (current_session r.2) = audio_chunks (current_session w)).
Proof.
  split; intros Hdata Hdecode; simpl.
  - rewrite (handle_audio_chunk_str _ _ _ Hdata). simpl. by rewrite Hdecode.
  - rewrite (handle_photo_capture_str _ _ _ _ Hdata). simpl. by rewrite Hdecode.
Qed.

(** C5. An [audio_chunk] or [photo_capture] event whose payload does not
    decode leaves the session and the files as they were; the error is
    printed (and, for a photo, reported to the client as [photo_error]),
    and the handler returns normally. *)
Theorem malformed_payload_is_dropped sid data w s e :
  (data !! "audio" = Some (PStr s) →
   b64decode s = Raise e →
   let r := handle_audio_chunk data w in
   r.1 = Ok tt ∧
   current_session r.2 = current_session w ∧
   files r.2 = files w ∧
   stdout r.2 = stdout w ++ ["[Error] Audio chunk save failed: " +:+ exn_str e] ∧
   socket_out r.2 = socket_out w) ∧
  (data !! "image" = Some (PStr s) →
   b64decode (image_base64 s) = Raise e →
   let r := handle_photo_capture sid data w in
   r.1 = Ok tt ∧
   current_session r.2 = current_session w ∧
   files r.2 = files w ∧
   stdout r.2 = stdout w ++ ["[Error] Photo save failed: " +:+ exn_str e] ∧
   socket_out r.2 =
     socket_out w ++ [mkMessage (ToClient sid) "photo_error" [("error", exn_str e)]]).
Proof.
  split; intros Hdata Hdecode; simpl.
  - rewrite (handle_audio_chunk_str _ _ _ Hdata). simpl. by rewrite Hdecode.
  - rewrite (handle_photo_capture_str _ _ _ _ Hdata). simpl. by rewrite Hdecode.
Qed.

(** C6. A photo sent as a data URL, a header without comma, a comma and
    base64 text, is handled exactly as the base64 text alone: same result,
    same file, same entry, same answer to the client. *)
Theorem data_url_prefix_is_ignored sid data header payload w :
  str_contains comma header = false →
  base64_text payload = true →
  image_base64 (header +:+ String comma payload) = payload ∧
  handle_photo_capture sid (<["image" := PStr (header +:+ String comma payload)]> data) w =
  handle_photo_capture sid (<["image" := PStr payload]> data) w.
Proof.
  intros Hheader Hpayload%base64_text_no_comma. split.
  - unfold image_base64.
    by rewrite str_contains_sep, str_split_sep, str_split_no_sep.
  - by apply photo_capture_prefix.
Qed.

(** ** The processor's history *)

Lemma GeminiProcessor_init_history load_model api_key out history :
  GeminiProcessor_init load_model api_key = Ok (out, history) → history = [].
Proof.
  unfold GeminiProcessor_init, mbind, Result_bind, mret, Result_ret.
  case_decide; [done|].
  destruct (load_model "gemini-3-pro-preview-11-2025"); [by intros [= _ <-]|].
  destruct (load_model "gemini-2.0-flash-exp"); [by intros [= _ <-]|].
  destruct (load_model "gemini-1.5-pro"); [by intros [= _ <-]|done].
Qed.

(** C7. From the start of the server and after any sequence of events,
    the context history holds at most 10 entries, and they are the last 10
    (or fewer) of the entries recorded by the successful calls of
    [generate_state], oldest first. *)
Theorem context_history_keeps_last_10 load_model api_key w0 evs :
  app_start load_model api_key = Ok w0 →
  length (context_history (run evs w0)) ≤ 10 ∧
  context_history (run evs w0) = slice_last 10 (history_recorded evs w0).
Proof.
  intros Hstart.
  assert (context_history w0 = []) as Hempty.
  { unfold app_start, mbind, Result_bind in Hstart.
    destruct (GeminiProcessor_init load_model api_key) as [[out history]|] eqn:Hinit;
      [|done].
    apply GeminiProcessor_init_history in Hinit as ->. by injection Hstart as <-. }
  assert (context_history (run evs w0) =
          slice_last 10 (history_recorded evs w0)) as ->.
  { rewrite run_context_history; rewrite Hempty; [done|simpl; lia]. }
  split; [apply slice_last_length|done].
Qed.

(** C8. The prompt is the parts joined by newlines; with no GPS fix it is
    always built; and in every prompt that is built, the location section
    is there exactly when there is a GPS fix, the photos section exactly
    when there is a photo, the audio section exactly when the audio count
    is not zero, each whatever the other two.  With neither fix nor photo
    the parts are the preamble, the audio section if any, the previous
    state if any, and the final instruction. *)
Theorem prompt_sections_are_independent history data :
  (∀ w, context_history w = history →
        _build_state_prompt data w =
        (match build_prompt_parts history data with
         | Ok parts => Ok (String.concat nl parts)
         | Raise e => Raise e
         end, w)) ∧
  (snap_gps_data data = [] → is_ok (build_prompt_parts history data) = true) ∧
  (snap_gps_data data = [] → snap_photos data = [] →
   build_prompt_parts history data =
   Ok (add_previous_context history (add_audio_data data [system_context]) ++
       [final_instruction])) ∧
  (∀ parts, build_prompt_parts history data = Ok parts →
     (location_header ∈ parts ↔ snap_gps_data data ≠ []) ∧
     (photos_header ∈ parts ↔ snap_photos data ≠ []) ∧
     (audio_header ∈ parts ↔ snap_audio_chunks data ≠ 0)).
Proof.
  split; [|split; [|split]].
  - intros w <-. unfold _build_state_prompt. run_monad.
    by destruct (build_prompt_parts _ data).
  - intros Hgps. by rewrite build_prompt_parts_no_gps.
  - intros Hgps Hphotos. rewrite build_prompt_parts_no_gps by done.
    unfold add_photo_data. by rewrite Hphotos.
  - intros parts Hparts.
    assert (∀ h, h ∈ section_headers → _) as Hh
      by (intros h Hin; exact (build_prompt_parts_headers _ _ _ h Hin Hparts)).
    rewrite !Hh by (unfold section_headers; rewrite !elem_of_cons; tauto).
    repeat split; try tauto; intros [[? ?]|[[? ?]|[? ?]]]; done.
Qed.

(** ** Start-up *)

(** C9. With an empty API key, whether [config.json] or the environment
    gave it, building the processor raises [ValueError], so the module
    never finishes loading and no event is ever served; [Config.validate]
    rejects the same key. *)
Theorem empty_api_key_refuses_to_start config_json environ load_model evs :
  Config_GEMINI_API_KEY config_json environ = "" →
  serve config_json environ load_model evs =
    Raise (ValueError "Gemini API key is required") ∧
  is_ok (Config_validate (Config_GEMINI_API_KEY config_json environ)) = false.
Proof.
  intros Hkey. unfold serve, app_start, GeminiProcessor_init, Config_validate.
  rewrite Hkey. split; by rewrite ?decide_True.
Qed.

(** * More of the server *)

(** ** What each handler does, for every payload *)

Lemma handle_audio_chunk_effect data w :
  handle_audio_chunk data w =
  let t := clock (ticks w) in
  match audio_payload data with
  | Ok audio_data =>
      (Ok tt,
       mkWorld
         (mkSession (gps_data (current_session w))
            (audio_chunks (current_session w) ++
             [mkAudioEntry (isoformat t) (audio_name t) (length audio_data)])
            (photos (current_session w)) (current_state (current_session w))
            (last_update (current_session w)))
         (context_history w)
         (<[os_path_join AUDIO_DIR (audio_name t) := audio_data]> (files w))
         (log_files w)
         (stdout w ++
          ["[Audio Chunk] Saved " +:+ audio_name t +:+ " (" +:+
           pretty (length audio_data) +:+ " bytes)"])
         (socket_out w) (S (ticks w)))
  | Raise e =>
      (Ok tt,
       mkWorld (current_session w) (context_history w) (files w) (log_files w)
               (stdout w ++ ["[Error] Audio chunk save failed: " +:+ exn_str e])
               (socket_out w) (S (ticks w)))
  end.
Proof.
  unfold handle_audio_chunk, audio_payload, audio_name. run_monad.
  destruct (dict_getitem data "audio") as [audio|]; run_monad; [|done].
  destruct (base64_b64decode audio); by run_monad.
Qed.

Lemma handle_photo_capture_effect sid data w :
  handle_photo_capture sid data w =
  let t := clock (ticks w) in
  match photo_payload data with
  | Ok photo_bytes =>
      (Ok tt,
       mkWorld
         (mkSession (gps_data (current_session w)) (audio_chunks (current_session w))
            (photos (current_session w) ++
             [mkPhotoEntry (isoformat t) (photo_name t)
                (os_path_join PHOTO_DIR (photo_name t)) (length photo_bytes)])
            (current_state (current_session w)) (last_update (current_session w)))
         (context_history w)
         (<[os_path_join PHOTO_DIR (photo_name t) := photo_bytes]> (files w))
         (log_files w)
         (stdout w ++
          ["[Photo Captured] " +:+ photo_name t +:+ " (" +:+
           pretty (length photo_bytes) +:+ " bytes)"])
         (socket_out w ++
          [mkMessage (ToClient sid) "photo_saved"
             [("filename", photo_name t); ("timestamp", isoformat t)]])
         (S (ticks w)))
  | Raise e =>
      (Ok tt,
       mkWorld (current_session w) (context_history w) (files w) (log_files w)
               (stdout w ++ ["[Error] Photo save failed: " +:+ exn_str e])
               (socket_out w ++ [mkMessage (ToClient sid) "photo_error" [("error", exn_str e)]])
               (S (ticks w)))
  end.
Proof.
  unfold handle_photo_capture, photo_payload, photo_name. run_monad.
  destruct (dict_getitem data "image") as [image|]; run_monad; [|done].
  destruct (py_contains comma image) as [[|]|]; run_monad; [| |done].
  - destruct (split_second image) as [piece|]; run_monad; [|done].
    destruct (base64_b64decode piece); by run_monad.
  - destruct (base64_b64decode image); by run_monad.
Qed.

Lemma handle_gps_update_effect data w :
  ∃ line,
    handle_gps_update data w =
    (Ok tt,
     mkWorld
       (mkSession
          (slice_last 100 (gps_data (current_session w) ++ [gps_fix (clock (ticks w)) data]))
          (audio_chunks (current_session w)) (photos (current_session w))
          (current_state (current_session w)) (last_update (current_session w)))
       (context_history w) (files w) (log_files w) (stdout w ++ [line])
       (socket_out w) (S (ticks w))).
Proof.
  unfold handle_gps_update, gps_fix. run_monad. rewrite slice_last_cap.
  destruct (format_6f (dict_get data "latitude")); run_monad; [|by eexists].
  destruct (format_6f (dict_get data "longitude")); run_monad; by eexists.
Qed.

(** A cycle, for every model. *)
Lemma background_cycle_effect model w :
  ∃ new_state history' out,
    background_state_updater_cycle model w =
    (Ok tt,
     mkWorld
       (mkSession (gps_data (current_session w)) (audio_chunks (current_session w))
                  (photos (current_session w)) new_state (isoformat (clock (ticks w + out))))
       history' (files w)
       (<[state_log (clock (S (S (ticks w + out)))) :=
            default [] (log_files w !! state_log (clock (S (S (ticks w + out))))) ++
            [mkLogEntry (isoformat (clock (S (ticks w + out)))) new_state
               (length (gps_data (current_session w)))
               (length (photos (current_session w)))
               (length (audio_chunks (current_session w)))]]> (log_files w))
       (stdout (generate_state model (snapshot_of w) w).2 ++
        ["[State Update] " +:+ isoformat (clock (S (S (S (ticks w + out))))) +:+ ": " +:+
         str_prefix 100 new_state +:+ "..."])
       (socket_out w ++
        [mkMessage Broadcast "state_update"
           [("state", new_state); ("timestamp", isoformat (clock (ticks w + out)))]])
       (S (S (S (S (ticks w + out)))))).
Proof.
  unfold background_state_updater_cycle.
  destruct (exchange model (context_history w) (snapshot_of w)) as [[prompt text]|e] eqn:Hx.
  - pose proof (generate_state_ok _ _ _ _ _ Hx) as Hgen.
    rewrite (state_updater_cycle_returned _ _ _ _ Hgen), Hgen.
    eexists text, _, 1. run_monad. by rewrite Nat.add_1_r.
  - pose proof (generate_state_failed _ _ _ _ Hx) as Hgen.
    rewrite (state_updater_cycle_returned _ _ _ _ Hgen), Hgen.
    eexists _, _, 0. run_monad. by rewrite Nat.add_0_r.
Qed.

Lemma run_app evs1 evs2 : ∀ w, run (evs1 ++ evs2) w = run evs2 (run evs1 w).
Proof. induction evs1 as [|ev evs1 IH]; intros w; simpl; [done|apply IH]. Qed.

(** ** Faults stay inside the handlers *)


(** ** Who changes what *)

Lemma dispatch_keeps_summary ev w :
  is_updater_wake ev = false →
  current_state (current_session (dispatch ev w).2) = current_state (current_session w) ∧
  last_update (current_session (dispatch ev w).2) = last_update (current_session w) ∧
  context_history (dispatch ev w).2 = context_history w ∧
  log_files (dispatch ev w).2 = log_files w.
Proof.
  destruct ev as [sid|sid|data|data|sid data|sid|model]; simpl; try done.
  - by destruct (handle_gps_update_effect data w) as [line ->].
  - rewrite handle_audio_chunk_effect. simpl. by destruct (audio_payload data).
  - rewrite handle_photo_capture_effect. simpl. by destruct (photo_payload data).
Qed.

(** X2. Only the updater touches the summary.  Through any events other
    than its wake-ups, the current state text, the time of the last update,
    the context history and the log files stay as they were; so a client
    asking for the state afterwards is answered with the text and time it
    would have got before. *)
Theorem only_updater_changes_summary evs sid w :
  Forall (λ ev, is_updater_wake ev = false) evs →
  current_state (current_session (run evs w)) = current_state (current_session w) ∧
  last_update (current_session (run evs w)) = last_update (current_session w) ∧
  context_history (run evs w) = context_history w ∧
  log_files (run evs w) = log_files w ∧
  socket_out (run (evs ++ [RequestState sid]) w) =
    socket_out (run evs w) ++
    [mkMessage (ToClient sid) "state_update"
       [("state", current_state (current_session w));
        ("timestamp", last_update (current_session w))]].
Proof.
  intros Hevs.
  assert (current_state (current_session (run evs w)) = current_state (current_session w) ∧
          last_update (current_session (run evs w)) = last_update (current_session w) ∧
          context_history (run evs w) = context_history w ∧
          log_files (run evs w) = log_files w) as (Hstate & Hupdate & Hhistory & Hlogs).
  { revert w. induction Hevs as [|ev evs Hev _ IH]; intros w; simpl; [done|].
    destruct (dispatch_keeps_summary ev w Hev) as (<- & <- & <- & <-). apply IH. }
  repeat split; try done.
  rewrite run_app. simpl. by rewrite Hstate, Hupdate.
Qed.

(** X3. A cycle of the updater, whatever the model answers, loses nothing
    that was captured: the GPS history, the audio and photo indexes and
    the files are as before. *)
Theorem updater_keeps_captures model w :
  let w' := (background_state_updater_cycle model w).2 in
  gps_data (current_session w') = gps_data (current_session w) ∧
  audio_chunks (current_session w') = audio_chunks (current_session w) ∧
  photos (current_session w') = photos (current_session w) ∧
  files w' = files w.
Proof. simpl. by destruct (background_cycle_effect model w) as (? & ? & ? & ->). Qed.

(** ** Messages *)

Lemma dispatch_broadcasts ev w :
  List.filter is_broadcast (socket_out (dispatch ev w).2) =
  List.filter is_broadcast (socket_out w) ++
  match ev with
  | UpdaterWakes _ =>
      [mkMessage Broadcast "state_update"
         [("state", current_state (current_session (dispatch ev w).2));
          ("timestamp", last_update (current_session (dispatch ev w).2))]]
  | _ => []
  end.
Proof.
  destruct ev as [sid|sid|data|data|sid data|sid|model]; simpl;
    rewrite ?app_nil_r.
  - by rewrite List.filter_app, app_nil_r.
  - done.
  - by destruct (handle_gps_update_effect data w) as [line ->].
  - rewrite handle_audio_chunk_effect. simpl. by destruct (audio_payload data).
  - rewrite handle_photo_capture_effect. simpl.
    destruct (photo_payload data); simpl; by rewrite List.filter_app, app_nil_r.
  - by rewrite List.filter_app, app_nil_r.
  - destruct (background_cycle_effect model w) as (? & ? & ? & ->). simpl.
    by rewrite List.filter_app.
Qed.

(** X4. Every wake-up of the updater ends in exactly one broadcast, and
    nothing else broadcasts: the number of broadcast messages grows by the
    number of wake-ups, whether the model answered or failed. *)
Theorem every_cycle_broadcasts evs : ∀ w,
  length (List.filter is_broadcast (socket_out (run evs w))) =
  length (List.filter is_broadcast (socket_out w)) +
  length (List.filter is_updater_wake evs).
Proof.
  induction evs as [|ev evs IH]; intros w; simpl; [lia|].
  rewrite IH, dispatch_broadcasts, length_app.
  destruct ev; simpl; lia.
Qed.

(** X5. GPS and audio events are never acknowledged: their handlers put
    nothing on the socket, whatever the payload.  A photo event is answered
    exactly once, to its sender only: [photo_saved] when the payload was
    decoded, [photo_error] otherwise. *)
Theorem acknowledgements sid data w :
  socket_out (handle_gps_update data w).2 = socket_out w ∧
  socket_out (handle_audio_chunk data w).2 = socket_out w ∧
  ∃ m,
    socket_out (handle_photo_capture sid data w).2 = socket_out w ++ [m] ∧
    msg_target m = ToClient sid ∧
    msg_event m = if is_ok (photo_payload data) then "photo_saved" else "photo_error".
Proof.
  split; [|split].
  - by destruct (handle_gps_update_effect data w) as [line ->].
  - rewrite handle_audio_chunk_effect. simpl. by destruct (audio_payload data).
  - rewrite handle_photo_capture_effect. simpl.
    destruct (photo_payload data); by eexists.
Qed.

(** ** Payloads without their field *)

(** X6. An [audio_chunk] without an [audio] field, or a [photo_capture]
    without an [image] field, is dropped on the [KeyError]: the session
    and the files are untouched, the error text is the quoted name of the
    field, and the photo's sender is told so in [photo_error].  The same
    goes for a field that is null or a number: it is never decoded. *)
Theorem payload_without_field_is_dropped sid data w :
  (data !! "audio" = None →
   current_session (handle_audio_chunk data w).2 = current_session w ∧
   files (handle_audio_chunk data w).2 = files w ∧
   stdout (handle_audio_chunk data w).2 =
     stdout w ++ ["[Error] Audio chunk save failed: 'audio'"]) ∧
  (data !! "image" = None →
   current_session (handle_photo_capture sid data w).2 = current_session w ∧
   files (handle_photo_capture sid data w).2 = files w ∧
   socket_out (handle_photo_capture sid data w).2 =
     socket_out w ++ [mkMessage (ToClient sid) "photo_error" [("error", "'image'")]]) ∧
  ((∀ s, data !! "audio" ≠ Some (PStr s)) →
   is_ok (audio_payload data) = false ∧
   current_session (handle_audio_chunk data w).2 = current_session w ∧
   files (handle_audio_chunk data w).2 = files w) ∧
  ((∀ s, data !! "image" ≠ Some (PStr s)) →
   is_ok (photo_payload data) = false ∧
   current_session (handle_photo_capture sid data w).2 = current_session w ∧
   files (handle_photo_capture sid data w).2 = files w).
Proof.
  rewrite handle_audio_chunk_effect, handle_photo_capture_effect.
  unfold audio_payload, photo_payload, dict_getitem, mbind, Result_bind.
  split; [|split; [|split]].
  - by intros ->.
  - by intros ->.
  - intros Hnot. destruct (data !! "audio") as [[| |s]|]; try done.
    by destruct (Hnot s).
  - intros Hnot. destruct (data !! "image") as [[| |s]|]; try done.
    by destruct (Hnot s).
Qed.

(** ** Files and indexes *)

(** X7. Photo files are named to the second.  Two photos taken while the
    clock shows the same second get the same name: the second capture
    replaces the file of the first, and the index holds two entries for
    the one file that is left. *)
Theorem photos_same_second_collide sid1 sid2 data1 data2 bytes1 bytes2 w :
  photo_payload data1 = Ok bytes1 →
  photo_payload data2 = Ok bytes2 →
  strftime_Ymd_HMS (clock (ticks w)) = strftime_Ymd_HMS (clock (S (ticks w))) →
  let t1 := clock (ticks w) in
  let t2 := clock (S (ticks w)) in
  let path := os_path_join PHOTO_DIR (photo_name t1) in
  let w' := (handle_photo_capture sid2 data2 (handle_photo_capture sid1 data1 w).2).2 in
  files w' = <[path := bytes2]> (files w) ∧
  photos (current_session w') =
    photos (current_session w) ++
    [mkPhotoEntry (isoformat t1) (photo_name t1) path (length bytes1);
     mkPhotoEntry (isoformat t2) (photo_name t1) path (length bytes2)].
Proof.
  intros H1 H2 Hsecond. simpl.
  rewrite (handle_photo_capture_effect sid1). simpl. rewrite H1.
  rewrite (handle_photo_capture_effect sid2). simpl. rewrite H2. simpl.
  unfold photo_name. rewrite <-Hsecond. split.
  - apply insert_insert_eq.
  - by rewrite <-app_assoc.
Qed.

Lemma dispatch_grows ev w :
  audio_chunks (current_session w) `prefix_of`
    audio_chunks (current_session (dispatch ev w).2) ∧
  photos (current_session w) `prefix_of` photos (current_session (dispatch ev w).2) ∧
  dom (files w) ⊆ dom (files (dispatch ev w).2) ∧
  (∀ f, default [] (log_files w !! f) `prefix_of`
        default [] (log_files (dispatch ev w).2 !! f)).
Proof.
  destruct ev as [sid|sid|data|data|sid data|sid|model]; simpl; try done.
  - by destruct (handle_gps_update_effect data w) as [line ->].
  - rewrite handle_audio_chunk_effect. simpl.
    destruct (audio_payload data); simpl; [|done].
    repeat split; [by apply prefix_app_r|done|rewrite dom_insert; set_solver|done].
  - rewrite handle_photo_capture_effect. simpl.
    destruct (photo_payload data); simpl; [|done].
    repeat split; [done|by apply prefix_app_r|rewrite dom_insert; set_solver|done].
  - destruct (background_cycle_effect model w) as (? & ? & out & ->). simpl.
    repeat split; try done. intros f.
    destruct (decide (state_log (clock (S (S (ticks w + out)))) = f)) as [<-|Hne].
    + rewrite lookup_insert_eq. simpl. by apply prefix_app_r.
    + by rewrite lookup_insert_ne.
Qed.

(** X8. Nothing is ever evicted from the audio and photo indexes, no file
    is ever removed, and no log line is ever rewritten: through any
    sequence of events the indexes and each log file only grow at the end,
    and every file that existed still exists. *)
Theorem indexes_only_grow evs : ∀ w,
  audio_chunks (current_session w) `prefix_of` audio_chunks (current_session (run evs w)) ∧
  photos (current_session w) `prefix_of` photos (current_session (run evs w)) ∧
  dom (files w) ⊆ dom (files (run evs w)) ∧
  (∀ f, default [] (log_files w !! f) `prefix_of`
        default [] (log_files (run evs w) !! f)).
Proof.
  induction evs as [|ev evs IH]; intros w; simpl; [done|].
  destruct (dispatch_grows ev w) as (Ha & Hp & Hf & Hl).
  destruct (IH (dispatch ev w).2) as (Ha' & Hp' & Hf' & Hl').
  split; [by etrans|]. split; [by etrans|].
  split; [etrans; [exact Hf|exact Hf']|].
  intros f. etrans; [apply Hl|apply Hl'].
Qed.

Lemma dispatch_indexed_files ev w :
  indexed_files_exist_in w → indexed_files_exist_in (dispatch ev w).2.
Proof.
  intros [Haudio Hphotos].
  destruct ev as [sid|sid|data|data|sid data|sid|model]; simpl; try done.
  - by destruct (handle_gps_update_effect data w) as [line ->].
  - rewrite handle_audio_chunk_effect. simpl.
    destruct (audio_payload data); simpl; [|done]. split; simpl.
    + intros e [He| ->%list_elem_of_singleton]%elem_of_app;
        rewrite lookup_insert_is_Some'; [right; by apply Haudio|by left].
    + intros e He. rewrite lookup_insert_is_Some'. right. by apply Hphotos.
  - rewrite handle_photo_capture_effect. simpl.
    destruct (photo_payload data); simpl; [|done]. split; simpl.
    + intros e He. rewrite lookup_insert_is_Some'. right. by apply Haudio.
    + intros e [He| ->%list_elem_of_singleton]%elem_of_app;
        rewrite lookup_insert_is_Some'; [right; by apply Hphotos|by left].
  - by destruct (background_cycle_effect model w) as (? & ? & ? & ->).
Qed.

(** X9. At any moment of a server's life, every entry of the audio index
    and of the photo index names a file that is on disk. *)
Theorem indexed_files_exist load_model api_key w0 evs :
  app_start load_model api_key = Ok w0 →
  indexed_files_exist_in (run evs w0).
Proof.
  intros Hstart.
  assert (indexed_files_exist_in w0) as Hw0.
  { unfold app_start, mbind, Result_bind in Hstart.
    destruct (GeminiProcessor_init load_model api_key) as [[out history]|]; [|done].
    injection Hstart as <-. split; simpl; by intros e ?%elem_of_nil. }
  clear Hstart. revert w0 Hw0.
  induction evs as [|ev evs IH]; intros w Hw; simpl; [done|].
  by apply IH, dispatch_indexed_files.
Qed.

(** ** What the history remembers *)

Lemma add_gps_data_extends data prompt_parts parts :
  add_gps_data data prompt_parts = Ok parts → prompt_parts `prefix_of` parts.
Proof.
  unfold add_gps_data. destruct (last (snap_gps_data data)); [|by intros [= <-]].
  case_decide.
  - intros (lines & -> & _)%append_each_lines. rewrite <-!app_assoc.
    by apply prefix_app_r.
  - intros [= <-]. by apply prefix_app_r.
Qed.

Lemma add_sections_extend history data prompt_parts :
  prompt_parts `prefix_of`
  add_previous_context history (add_audio_data data (add_photo_data data prompt_parts)).
Proof.
  assert (∀ parts, parts `prefix_of` add_photo_data data parts) as Hphoto.
  { intros parts. unfold add_photo_data.
    destruct (snap_photos data); [done|by apply prefix_app_r]. }
  assert (∀ parts, parts `prefix_of` add_audio_data data parts) as Haudio.
  { intros parts. unfold add_audio_data. case_decide; [done|by apply prefix_app_r]. }
  assert (∀ parts, parts `prefix_of` add_previous_context history parts) as Hprevious.
  { intros parts. unfold add_previous_context.
    destruct (last history); [by apply prefix_app_r|done]. }
  etrans; [apply Hphoto|]. etrans; [apply Haudio|apply Hprevious].
Qed.

Lemma prompt_starts_with_system_context history data prompt :
  prompt_for history data = Ok prompt → ∃ rest, prompt = system_context +:+ rest.
Proof.
  unfold prompt_for, build_prompt_parts, mbind, Result_bind, mret, Result_ret.
  destruct (add_gps_data data [system_context]) as [gps_parts|] eqn:Hgps; [|done].
  assert ([system_context] `prefix_of`
          add_previous_context history
            (add_audio_data data (add_photo_data data gps_parts)) ++
          [final_instruction]) as [tail ->].
  { etrans; [by eapply add_gps_data_extends|].
    etrans; [apply add_sections_extend|by apply prefix_app_r]. }
  intros [= <-]. destruct tail as [|part tail].
  - exists "". by rewrite append_empty_r.
  - by exists (nl +:+ String.concat nl (part :: tail)).
Qed.

Lemma recorded_prompt model history data prompt state_text t :
  exchange model history data = Ok (prompt, state_text) →
  ctx_prompt (context_entry t prompt state_text) = stored_prompt.
Proof.
  unfold exchange, mbind, Result_bind, mret, Result_ret.
  destruct (prompt_for history data) as [p|] eqn:Hp; [|done].
  destruct (model p); [|done]. intros [= <- _].
  apply prompt_starts_with_system_context in Hp as [rest ->].
  reflexivity.
Qed.

(** X10. The prompt kept in a history entry says nothing about the
    request it came from: the preamble is longer than 200 characters, so
    the truncation to 200 leaves the same text in every entry, the start
    of the preamble followed by three dots. *)
Theorem stored_prompt_is_constant load_model api_key w0 evs :
  app_start load_model api_key = Ok w0 →
  ∀ e, e ∈ context_history (run evs w0) → ctx_prompt e = stored_prompt.
Proof.
  intros Hstart.
  assert (∀ e, e ∈ context_history w0 → ctx_prompt e = stored_prompt) as Hw0.
  { unfold app_start, mbind, Result_bind in Hstart.
    destruct (GeminiProcessor_init load_model api_key) as [[out history]|] eqn:Hinit;
      [|done].
    apply GeminiProcessor_init_history in Hinit as ->.
    injection Hstart as <-. simpl. by intros e ?%elem_of_nil. }
  clear Hstart. revert w0 Hw0.
  induction evs as [|ev evs IH]; intros w Hw; simpl; [done|].
  apply IH. rewrite dispatch_context_history. destruct ev; try done.
  destruct (exchange _ _ _) as [[prompt text]|] eqn:Hx; [|done].
  intros e He. apply subseteq_drop, elem_of_app in He as [He|He]; [by apply Hw|].
  apply list_elem_of_singleton in He as ->. by eapply recorded_prompt.
Qed.

(** X11. The text returned by a successful call is what the next prompt
    carries as previous state, whatever the next snapshot; a failed call
    leaves the history, and so the previous state of the next prompt, as
    it was. *)
Theorem previous_response_feeds_next_prompt model data w :
  (∀ prompt state_text data' parts,
     exchange model (context_history w) data = Ok (prompt, state_text) →
     build_prompt_parts (context_history (generate_state model data w).2) data' = Ok parts →
     history_header ∈ parts ∧
     ("Previous state (for context): " +:+ state_text) ∈ parts) ∧
  (∀ e,
     exchange model (context_history w) data = Raise e →
     context_history (generate_state model data w).2 = context_history w).
Proof.
  split.
  - intros prompt text data' parts Hx. rewrite (generate_state_ok _ _ _ _ _ Hx). simpl.
    unfold build_prompt_parts, mbind, Result_bind, mret, Result_ret.
    destruct (add_gps_data data' [system_context]) as [gps_parts|]; [|done].
    intros [= <-]. unfold add_previous_context.
    rewrite slice_last_snoc by lia. simpl.
    rewrite !elem_of_app, !elem_of_cons. split; left; right; tauto.
  - intros e Hx. by rewrite (generate_state_failed _ _ _ _ Hx).
Qed.

(** ** Building the processor *)

(** X12. With a key, the processor is built as soon as one of the three
    models loads, tried in the order Gemini 3 Pro, 2.0 Flash, 1.5 Pro: the
    model announced is the first that loads.  When none loads, the
    exception is that of the last one. *)
Theorem GeminiProcessor_init_falls_back load_model api_key :
  api_key ≠ "" →
  let m1 := "gemini-3-pro-preview-11-2025" in
  let m2 := "gemini-2.0-flash-exp" in
  let m3 := "gemini-1.5-pro" in
  match GeminiProcessor_init load_model api_key with
  | Ok (out, history) =>
      history = [] ∧
      ∃ name,
        last out = Some ("[Gemini] Initialized with model: " +:+ name) ∧
        (load_model m1 = Ok name ∨
         is_ok (load_model m1) = false ∧ load_model m2 = Ok name ∨
         is_ok (load_model m1) = false ∧ is_ok (load_model m2) = false ∧
         load_model m3 = Ok name)
  | Raise e =>
      is_ok (load_model m1) = false ∧ is_ok (load_model m2) = false ∧
      load_model m3 = Raise e
  end.
Proof.
  intros Hkey. simpl.
  unfold GeminiProcessor_init, mbind, Result_bind, mret, Result_ret.
  rewrite decide_False by done.
  destruct (load_model "gemini-3-pro-preview-11-2025") as [name|e1].
  { split; [done|]. exists name. split; [done|by left]. }
  destruct (load_model "gemini-2.0-flash-exp") as [name|e2].
  { split; [done|]. exists name. split; [done|right; by left]. }
  destruct (load_model "gemini-1.5-pro") as [name|e3]; [|done].
  split; [done|]. exists name. split; [done|right; by right].
Qed.

(** ** The two file helpers *)

(** X13. [analyze_photo] and [transcribe_audio] never raise: they return
    the model's text, or "Unable to ..." followed by the error of the
    upload or of the model; a failed upload keeps the model from being
    asked.  Unlike [generate_state] they record nothing: session, history,
    files and socket are untouched. *)
Theorem file_helpers_never_raise upload_file model path w :
  let answer prompt failure :=
    match upload_file path with
    | Ok file =>
        match model prompt file with
        | Ok text => text
        | Raise e => failure +:+ exn_str e
        end
    | Raise e => failure +:+ exn_str e
    end in
  let photo := analyze_photo upload_file model path w in
  let audio := transcribe_audio upload_file model path w in
  photo.1 = Ok (answer vision_prompt "Unable to analyze photo: ") ∧
  audio.1 = Ok (answer transcription_prompt "Unable to transcribe audio: ") ∧
  current_session photo.2 = current_session w ∧
  current_session audio.2 = current_session w ∧
  context_history photo.2 = context_history w ∧
  context_history audio.2 = context_history w ∧
  files photo.2 = files w ∧ files audio.2 = files w ∧
  socket_out photo.2 = socket_out w ∧ socket_out audio.2 = socket_out w.
Proof.
  simpl. unfold analyze_photo, transcribe_audio. run_monad.
  destruct (upload_file path) as [file|]; run_monad; [|done].
  destruct (model vision_prompt file), (model transcription_prompt file);
    by run_monad.
Qed.

(** ** Configuration *)

(** X15. When [config.json] exists, the environment is never consulted:
    the key is the file's, and a file without the key stops the server
    from starting even if the environment holds one. *)
Theorem config_file_hides_environment config_data environ environ' load_model evs :
  Config_GEMINI_API_KEY (Some config_data) environ =
  Config_GEMINI_API_KEY (Some config_data) environ' ∧
  (config_data !! "GEMINI_API_KEY" = None →
   is_ok (serve (Some config_data) environ load_model evs) = false).
Proof.
  split; [done|]. intros Hmissing.
  unfold serve, app_start, GeminiProcessor_init, Config_GEMINI_API_KEY.
  by rewrite Hmissing.
Qed.

(** ** The data URL of a photo *)


(** ** The status page *)

Lemma slice_last_min {A} (n : nat) (l : list A) :
  length (slice_last n l) = n `min` length l.
Proof. unfold slice_last. rewrite length_drop. lia. Qed.

Lemma dispatch_counts ev w :
  length (gps_data (current_session (dispatch ev w).2)) =
    (if is_gps_update ev then 100 `min` S (length (gps_data (current_session w)))
     else length (gps_data (current_session w))) ∧
  length (audio_chunks (current_session (dispatch ev w).2)) =
    length (audio_chunks (current_session w)) + (if audio_saved ev then 1 else 0) ∧
  length (photos (current_session (dispatch ev w).2)) =
    length (photos (current_session w)) + (if photo_saved ev then 1 else 0).
Proof.
  destruct ev as [sid|sid|data|data|sid data|sid|model];
    cbn [dispatch is_gps_update audio_saved photo_saved].
  - unfold handle_connect. run_monad. lia.
  - unfold handle_disconnect. run_monad. lia.
  - destruct (handle_gps_update_effect data w) as [line ->]. run_monad.
    rewrite slice_last_min, length_app. cbn [length]. lia.
  - rewrite handle_audio_chunk_effect. run_monad.
    destruct (audio_payload data); run_monad; rewrite ?length_app; cbn [length is_ok]; lia.
  - rewrite handle_photo_capture_effect. run_monad.
    destruct (photo_payload data); run_monad; rewrite ?length_app; cbn [length is_ok]; lia.
  - unfold handle_state_request. run_monad. lia.
  - destruct (background_cycle_effect model w) as (? & ? & ? & ->). run_monad. lia.
Qed.

Lemma run_counts evs : ∀ w,
  length (gps_data (current_session w)) ≤ 100 →
  length (gps_data (current_session (run evs w))) =
    100 `min` (length (gps_data (current_session w)) +
               length (List.filter is_gps_update evs)) ∧
  length (audio_chunks (current_session (run evs w))) =
    length (audio_chunks (current_session w)) + length (List.filter audio_saved evs) ∧
  length (photos (current_session (run evs w))) =
    length (photos (current_session w)) + length (List.filter photo_saved evs).
Proof.
  induction evs as [|ev evs IH]; intros w Hlen; cbn [run List.filter].
  - cbn [length]. lia.
  - destruct (dispatch_counts ev w) as (Hgps & Haudio & Hphotos).
    destruct (IH (dispatch ev w).2) as (-> & -> & ->).
    { rewrite Hgps. destruct (is_gps_update ev); lia. }
    rewrite Hgps, Haudio, Hphotos.
    destruct (is_gps_update ev), (audio_saved ev), (photo_saved ev);
      cbn [length]; lia.
Qed.

(** X14. The status page changes nothing, and its counters say what the
    server has taken in since it started: the GPS events up to a hundred,
    the photos whose payload was decoded, the audio chunks whose payload
    was decoded. *)
Theorem status_counts load_model api_key w0 evs :
  app_start load_model api_key = Ok w0 →
  let w := run evs w0 in
  status w =
  (Ok (mkStatusReply "running"
         (current_state (current_session w)) (last_update (current_session w))
         (100 `min` length (List.filter is_gps_update evs))
         (length (List.filter photo_saved evs))
         (length (List.filter audio_saved evs))),
   w).
Proof.
  intros Hstart. simpl.
  assert (gps_data (current_session w0) = [] ∧
          audio_chunks (current_session w0) = [] ∧
          photos (current_session w0) = []) as (Hgps & Haudio & Hphotos).
  { unfold app_start, mbind, Result_bind in Hstart.
    destruct (GeminiProcessor_init load_model api_key) as [[out history]|]; [|done].
    by injection Hstart as <-. }
  destruct (run_counts evs w0) as (Hg & Ha & Hp); [rewrite Hgps; cbn [length]; lia|].
  rewrite Hgps in Hg. rewrite Haudio in Ha. rewrite Hphotos in Hp.
  cbn [length] in Hg, Ha, Hp. rewrite Nat.add_0_l in Hg, Ha, Hp.
  unfold status. run_monad. do 2 f_equal. f_equal; [exact Hg|exact Hp|exact Ha].
Qed.

(** ** What the clients were last told *)



(** ** When a prompt can be built *)




(** ** One text, three places *)

(** X19. In every cycle, whatever the model does, the text stored as
    current state is the text broadcast and the text of the one line added
    to the day's log; the broadcast carries the stored time of the update,
    and the log line counts what the session held when the cycle began. *)
Theorem cycle_stores_logs_and_broadcasts_one_text model w :
  let w' := (background_state_updater_cycle model w).2 in
  ∃ log_file entry,
    log_files w' =
      <[log_file := default [] (log_files w !! log_file) ++ [entry]]> (log_files w) ∧
    log_state entry = current_state (current_session w') ∧
    log_gps_count entry = length (gps_data (current_session w)) ∧
    log_photo_count entry = length (photos (current_session w)) ∧
    log_audio_chunks entry = length (audio_chunks (current_session w)) ∧
    socket_out w' =
      socket_out w ++
      [mkMessage Broadcast "state_update"
         [("state", current_state (current_session w'));
          ("timestamp", last_update (current_session w'))]].
Proof.
  simpl. destruct (background_cycle_effect model w) as (text & ? & out & ->).
  by eexists _, _.
Qed.

End Properties.

(** * The theorems at work on the concrete platform *)

(** C1 as stated fails: with the network down, the cycle on a freshly
    started server replaces the current state by the error text, moves the
    time of the last update, broadcasts and logs. *)
Lemma failed_cycle_not_skipped :
  let w := start_world in
  let r := background_state_updater_cycle unreachable_model w in
  exchange unreachable_model (context_history w) (snapshot_of w) = Raise network_down ∧
  current_state (current_session w) = "Initializing Rememory..." ∧
  current_state (current_session r.2) = "Unable to generate state: network unreachable" ∧
  last_update (current_session w) = "2025-11-20T12:00:00" ∧
  last_update (current_session r.2) = "2025-11-20T12:00:01" ∧
  socket_out w = [] ∧
  socket_out r.2 =
    [mkMessage Broadcast "state_update"
       [("state", "Unable to generate state: network unreachable");
        ("timestamp", "2025-11-20T12:00:01")]] ∧
  log_files w = ∅ ∧
  log_files r.2 !! "/srv/rememory/data/logs/state_log_20251120.jsonl" =
    Some [mkLogEntry "2025-11-20T12:00:02"
            "Unable to generate state: network unreachable" 0 0 0] ∧
  current_state (current_session r.2) ≠ current_state (current_session w) ∧
  last_update (current_session r.2) ≠ last_update (current_session w) ∧
  socket_out r.2 ≠ socket_out w.
Proof. vm_compute. repeat split; discriminate. Qed.

(** The two cases of the cycle on the freshly started server. *)
Lemma failed_model_call_is_published_witness :
  let w := start_world in
  (failing_generate (snapshot_of w) w = (Raise (mkExn "RuntimeError" "boom"), w) ∧
   let r := state_updater_cycle failing_generate w in
   r.1 = Ok tt ∧
   current_session r.2 = current_session w ∧
   log_files r.2 = log_files w ∧
   socket_out r.2 = socket_out w) ∧
  (exchange unreachable_model (context_history w) (snapshot_of w) = Raise network_down ∧
   current_state (current_session (background_state_updater_cycle unreachable_model w).2) =
   "Unable to generate state: " +:+ exn_str network_down).
Proof.
  split.
  - split; [reflexivity|].
    apply (proj1 (failed_model_call_is_published start_world) failing_generate
             (mkExn "RuntimeError" "boom") start_world).
    reflexivity.
  - split; [vm_compute; reflexivity|].
    destruct (proj2 (failed_model_call_is_published start_world)
                unreachable_model network_down) as (_ & Hstate & _).
    + vm_compute; reflexivity.
    + exact Hstate.
Defined.

(** Two fixes and a connection on the freshly started server. *)
Lemma gps_history_keeps_last_100_witness :
  app_start model_loader "secret" = Ok start_world ∧
  let evs := [GpsUpdate fix_without_latitude; Connect "a"; GpsUpdate ∅] in
  length (gps_data (current_session (run evs start_world))) ≤ 100 ∧
  gps_data (current_session (run evs start_world)) =
    slice_last 100 (gps_received evs start_world).
Proof.
  split; [vm_compute; reflexivity|].
  apply (gps_history_keeps_last_100 model_loader "secret"). vm_compute; reflexivity.
Defined.

(** A fix with a longitude and no latitude. *)
Lemma gps_update_without_coordinates_is_kept_witness :
  dict_get fix_without_latitude "latitude" = PNone ∧
  (handle_gps_update fix_without_latitude start_world).1 = Ok tt ∧
  last (gps_data (current_session (handle_gps_update fix_without_latitude start_world).2)) =
    Some (gps_fix (clock (ticks start_world)) fix_without_latitude).
Proof.
  split; [vm_compute; reflexivity|].
  destruct (gps_update_without_coordinates_is_kept fix_without_latitude start_world)
    as (Hret & _ & Hlast & _).
  - left. vm_compute; reflexivity.
  - split; [exact Hret|exact Hlast].
Defined.

(** The three bytes [ABC], sent as audio and as a photo. *)
Lemma valid_payload_is_saved_witness :
  abc_payload !! "audio" = Some (PStr "QUJD") ∧
  b64decode "QUJD" = Ok (bytes_of_string "ABC") ∧
  files (handle_audio_chunk abc_payload start_world).2 =
    <[os_path_join AUDIO_DIR (audio_name (clock (ticks start_world))) :=
        bytes_of_string "ABC"]> (files start_world) ∧
  abc_payload !! "image" = Some (PStr "QUJD") ∧
  b64decode (image_base64 "QUJD") = Ok (bytes_of_string "ABC") ∧
  files (handle_photo_capture "client-1" abc_payload start_world).2 =
    <[os_path_join PHOTO_DIR (photo_name (clock (ticks start_world))) :=
        bytes_of_string "ABC"]> (files start_world).
Proof.
  pose proof (valid_payload_is_saved "client-1" abc_payload start_world "QUJD"
                (bytes_of_string "ABC")) as [Haudio Hphoto].
  split; [vm_compute; reflexivity|]. split; [vm_compute; reflexivity|].
  split; [apply Haudio; vm_compute; reflexivity|].
  split; [vm_compute; reflexivity|]. split; [vm_compute; reflexivity|].
  apply Hphoto; vm_compute; reflexivity.
Defined.

(** A payload with one padding character missing. *)
Lemma malformed_payload_is_dropped_witness :
  broken_payload !! "audio" = Some (PStr "QQ=") ∧
  b64decode "QQ=" = Raise (mkExn "binascii.Error" "Incorrect padding") ∧
  current_session (handle_audio_chunk broken_payload start_world).2 =
    current_session start_world ∧
  broken_payload !! "image" = Some (PStr "QQ=") ∧
  b64decode (image_base64 "QQ=") = Raise (mkExn "binascii.Error" "Incorrect padding") ∧
  files (handle_photo_capture "client-1" broken_payload start_world).2 =
    files start_world.
Proof.
  pose proof (malformed_payload_is_dropped "client-1" broken_payload start_world "QQ="
                (mkExn "binascii.Error" "Incorrect padding")) as [Haudio Hphoto].
  split; [vm_compute; reflexivity|]. split; [vm_compute; reflexivity|].
  split; [apply Haudio; vm_compute; reflexivity|].
  split; [vm_compute; reflexivity|]. split; [vm_compute; reflexivity|].
  apply Hphoto; vm_compute; reflexivity.
Defined.

(** The JPEG data URL of the same three bytes. *)
Lemma data_url_prefix_is_ignored_witness :
  str_contains comma "data:image/jpeg;base64" = false ∧
  base64_text "QUJD" = true ∧
  image_base64 "data:image/jpeg;base64,QUJD" = "QUJD" ∧
  handle_photo_capture "client-1"
    (<["image" := PStr "data:image/jpeg;base64,QUJD"]> ∅) start_world =
  handle_photo_capture "client-1" (<["image" := PStr "QUJD"]> ∅) start_world.
Proof.
  split; [vm_compute; reflexivity|]. split; [vm_compute; reflexivity|].
  apply (data_url_prefix_is_ignored "client-1" ∅ "data:image/jpeg;base64" "QUJD"
           start_world); vm_compute; reflexivity.
Defined.

(** Three cycles, the second with the network down. *)
Lemma context_history_keeps_last_10_witness :
  app_start model_loader "secret" = Ok start_world ∧
  let evs := [UpdaterWakes calm_model; UpdaterWakes unreachable_model;
              UpdaterWakes calm_model] in
  length (context_history (run evs start_world)) ≤ 10 ∧
  context_history (run evs start_world) =
    slice_last 10 (history_recorded evs start_world).
Proof.
  split; [vm_compute; reflexivity|].
  apply (context_history_keeps_last_10 model_loader "secret"). vm_compute; reflexivity.
Defined.

(** A snapshot with audio chunks only. *)
Lemma prompt_sections_are_independent_witness :
  snap_gps_data audio_only = [] ∧
  snap_photos audio_only = [] ∧
  build_prompt_parts [] audio_only =
  Ok (add_previous_context [] (add_audio_data audio_only [system_context]) ++
      [final_instruction]).
Proof.
  split; [reflexivity|]. split; [reflexivity|].
  apply (prompt_sections_are_independent [] audio_only); reflexivity.
Defined.

(** A [config.json] without the key hides the key of the environment. *)
Lemma empty_api_key_refuses_to_start_witness :
  Config_GEMINI_API_KEY (Some ∅) {["GEMINI_API_KEY" := "secret"]} = "" ∧
  serve (Some ∅) {["GEMINI_API_KEY" := "secret"]} model_loader [Connect "a"] =
    Raise (ValueError "Gemini API key is required").
Proof.
  split; [vm_compute; reflexivity|].
  apply (empty_api_key_refuses_to_start (Some ∅) {["GEMINI_API_KEY" := "secret"]}
           model_loader [Connect "a"]).
  vm_compute; reflexivity.
Defined.

(** The 101st fix pushes the first one out: the oldest fix left is the
    second one received. *)
Example gps_history_evicts_oldest :
  let w := run (replicate 101 (GpsUpdate fix_without_latitude)) start_world in
  length (gps_data (current_session w)) = 100 ∧
  gps_timestamp <$> head (gps_data (current_session w)) = Some "2025-11-20T12:00:02" ∧
  gps_timestamp <$> last (gps_data (current_session w)) = Some "2025-11-20T12:01:41".
Proof. vm_compute. repeat split. Qed.

(** With two fixes of which one has no latitude, the movement trail cannot
    be formatted: no prompt is built, and [generate_state] answers with
    the error text without calling the model. *)
Example trail_needs_coordinates :
  let w := run [GpsUpdate fix_without_latitude; GpsUpdate fix_without_latitude]
               start_world in
  build_prompt_parts (context_history w) (snapshot_of w) =
    Raise (TypeError "unsupported format string passed to NoneType.__format__") ∧
  (generate_state calm_model (snapshot_of w) w).1 =
    Ok "Unable to generate state: unsupported format string passed to NoneType.__format__".
Proof. vm_compute. repeat split. Qed.

(** * The further theorems at work *)

(** Events without a wake-up of the updater. *)
Lemma only_updater_changes_summary_witness :
  Forall (λ ev, is_updater_wake ev = false) quiet_events ∧
  current_state (current_session (run quiet_events start_world)) =
    current_state (current_session start_world).
Proof.
  assert (Forall (λ ev, is_updater_wake ev = false) quiet_events) as Hquiet
    by (repeat constructor).
  split; [exact Hquiet|].
  exact (proj1 (only_updater_changes_summary quiet_events "a" start_world Hquiet)).
Defined.

(** An empty payload. *)
Lemma payload_without_field_is_dropped_witness :
  (∅ : gmap string pyval) !! "audio" = None ∧
  current_session (handle_audio_chunk ∅ start_world).2 = current_session start_world.
Proof.
  split; [reflexivity|].
  destruct (payload_without_field_is_dropped "a" ∅ start_world) as (Haudio & _).
  destruct Haudio as (Hsession & _); [reflexivity|exact Hsession].
Defined.

(** The bytes [ABC] and then [DEF], photographed within one second. *)
Lemma photos_same_second_collide_witness :
  @photo_payload integers burst abc_payload = Ok (bytes_of_string "ABC") ∧
  @photo_payload integers burst def_payload = Ok (bytes_of_string "DEF") ∧
  strftime_Ymd_HMS (burst_clock 1) = strftime_Ymd_HMS (burst_clock 2) ∧
  files (@handle_photo_capture integers burst "b" def_payload
           (@handle_photo_capture integers burst "a" abc_payload start_world).2).2 =
  <[@os_path_join (@PHOTO_DIR integers burst) (photo_name (burst_clock 1)) :=
      bytes_of_string "DEF"]> (files start_world).
Proof.
  split; [vm_compute; reflexivity|]. split; [vm_compute; reflexivity|].
  split; [vm_compute; reflexivity|].
  apply (@photos_same_second_collide integers burst "a" "b" abc_payload def_payload
           (bytes_of_string "ABC") (bytes_of_string "DEF") start_world);
    vm_compute; reflexivity.
Defined.

(** A busy afternoon. *)
Lemma indexed_files_exist_witness :
  app_start model_loader "secret" = Ok start_world ∧
  indexed_files_exist_in (run busy_events start_world).
Proof.
  split; [vm_compute; reflexivity|].
  apply (indexed_files_exist model_loader "secret"). vm_compute; reflexivity.
Defined.

Lemma stored_prompt_is_constant_witness :
  app_start model_loader "secret" = Ok start_world ∧
  ∀ e, e ∈ context_history (run busy_events start_world) → ctx_prompt e = stored_prompt.
Proof.
  split; [vm_compute; reflexivity|].
  apply (stored_prompt_is_constant model_loader "secret"). vm_compute; reflexivity.
Defined.

(** The first answer of the model is in the second prompt. *)
Lemma previous_response_feeds_next_prompt_witness :
  exchange calm_model (context_history start_world) audio_only =
    Ok (first_prompt, calm_text) ∧
  build_prompt_parts
    (context_history (generate_state calm_model audio_only start_world).2) audio_only =
    Ok second_parts ∧
  ("Previous state (for context): " +:+ calm_text) ∈ second_parts.
Proof.
  assert (exchange calm_model (context_history start_world) audio_only =
          Ok (first_prompt, calm_text)) as Hx by (vm_compute; reflexivity).
  assert (build_prompt_parts
            (context_history (generate_state calm_model audio_only start_world).2)
            audio_only = Ok second_parts) as Hparts by (vm_compute; reflexivity).
  split; [exact Hx|]. split; [exact Hparts|].
  exact (proj2 (proj1 (previous_response_feeds_next_prompt calm_model audio_only
                         start_world) first_prompt calm_text audio_only second_parts
                  Hx Hparts)).
Defined.

(** Only the second model can be loaded. *)
Lemma GeminiProcessor_init_falls_back_witness :
  "secret" ≠ "" ∧
  match GeminiProcessor_init second_model_only "secret" with
  | Ok (out, history) =>
      history = [] ∧
      ∃ name,
        last out = Some ("[Gemini] Initialized with model: " +:+ name) ∧
        (second_model_only "gemini-3-pro-preview-11-2025" = Ok name ∨
         is_ok (second_model_only "gemini-3-pro-preview-11-2025") = false ∧
         second_model_only "gemini-2.0-flash-exp" = Ok name ∨
         is_ok (second_model_only "gemini-3-pro-preview-11-2025") = false ∧
         is_ok (second_model_only "gemini-2.0-flash-exp") = false ∧
         second_model_only "gemini-1.5-pro" = Ok name)
  | Raise e =>
      is_ok (second_model_only "gemini-3-pro-preview-11-2025") = false ∧
      is_ok (second_model_only "gemini-2.0-flash-exp") = false ∧
      second_model_only "gemini-1.5-pro" = Raise e
  end.
Proof.
  assert ("secret" ≠ "") as Hkey by (vm_compute; discriminate).
  split; [exact Hkey|].
  exact (GeminiProcessor_init_falls_back second_model_only "secret" Hkey).
Defined.

Lemma status_counts_witness :
  app_start model_loader "secret" = Ok start_world ∧
  status (run busy_events start_world) =
  (Ok (mkStatusReply "running"
         (current_state (current_session (run busy_events start_world)))
         (last_update (current_session (run busy_events start_world)))
         (100 `min` length (List.filter is_gps_update busy_events))
         (length (List.filter photo_saved busy_events))
         (length (List.filter audio_saved busy_events))),
   run busy_events start_world).
Proof.
  split; [vm_compute; reflexivity|].
  apply (status_counts model_loader "secret"). vm_compute; reflexivity.
Defined.

(** An empty [config.json] beside a key in the environment. *)
Lemma config_file_hides_environment_witness :
  (∅ : gmap string string) !! "GEMINI_API_KEY" = None ∧
  is_ok (serve (Some ∅) {["GEMINI_API_KEY" := "secret"]} model_loader [Connect "a"]) =
    false.
Proof.
  split; [reflexivity|].
  apply (proj2 (config_file_hides_environment ∅ {["GEMINI_API_KEY" := "secret"]} ∅
                  model_loader [Connect "a"])).
  reflexivity.
Defined.



